(** * codgic-api: the user model (src/models/user.ts)

    A shallow embedding of [getUserInfo], [getUserList] and [postUser].
    The asynchronous functions become computations over an explicit
    [World]: the two tables behind the TypeORM repositories, the record of
    the repository calls made, the console and the rejections nobody
    handled.  A rejected promise (a thrown value) is the [inl] of the
    result; the tables survive a rejection, as they do in the database. *)

From Stdlib Require Import ZArith String List Lia.
From Stdlib Require Import Ascii Sorted.
From stdpp Require Import base list strings pretty.

Local Open Scope string_scope.
Local Open Scope Z_scope.

(** ** Thrown values *)

(** What the code throws and catches: the http-errors objects built by
    [createError] carry a [status], the errors of the database driver an
    [errno] (1062 is MySQL's duplicate-entry code, tested in [postUser]). *)
Record JsError := mkJsError {
  status : option Z;
  errno : option Z;
  message : string
}.

Definition createError (st : Z) (msg : string) : JsError :=
  {| status := Some st; errno := None; message := msg |}.

Global Instance JsError_eq_dec : EqDecision JsError.
Proof. solve_decision. Defined.

(** ** Entities *)

(** [new User()] has every column undefined, so each field is an option;
    a stored row has its [id] (and [createdAt]) filled in by the database. *)
Module User.
Record t := mk {
  id : option Z;
  email : option string;
  username : option string;
  nickname : option string;
  sex : option Z;
  motto : option string;
  description : option string;
  privilege : option Z;
  createdAt : option Z
}.

Definition new : t :=
  {| id := None; email := None; username := None; nickname := None;
     sex := None; motto := None; description := None; privilege := None;
     createdAt := None |}.

Definition set_id (v : option Z) (u : t) : t :=
  mk v (email u) (username u) (nickname u) (sex u) (motto u)
     (description u) (privilege u) (createdAt u).
Definition set_email (v : option string) (u : t) : t :=
  mk (id u) v (username u) (nickname u) (sex u) (motto u)
     (description u) (privilege u) (createdAt u).
Definition set_username (v : option string) (u : t) : t :=
  mk (id u) (email u) v (nickname u) (sex u) (motto u)
     (description u) (privilege u) (createdAt u).
Definition set_nickname (v : option string) (u : t) : t :=
  mk (id u) (email u) (username u) v (sex u) (motto u)
     (description u) (privilege u) (createdAt u).
Definition set_sex (v : option Z) (u : t) : t :=
  mk (id u) (email u) (username u) (nickname u) v (motto u)
     (description u) (privilege u) (createdAt u).
Definition set_motto (v : option string) (u : t) : t :=
  mk (id u) (email u) (username u) (nickname u) (sex u) v
     (description u) (privilege u) (createdAt u).
Definition set_description (v : option string) (u : t) : t :=
  mk (id u) (email u) (username u) (nickname u) (sex u) (motto u)
     v (privilege u) (createdAt u).
Definition set_privilege (v : option Z) (u : t) : t :=
  mk (id u) (email u) (username u) (nickname u) (sex u) (motto u)
     (description u) v (createdAt u).
Definition set_createdAt (v : option Z) (u : t) : t :=
  mk (id u) (email u) (username u) (nickname u) (sex u) (motto u)
     (description u) (privilege u) v.
End User.

Global Instance User_eq_dec : EqDecision User.t.
Proof. solve_decision. Defined.

(** The in-memory credential entity: [user] is the joined [User] object. *)
Module UserCredential.
Record t := mk {
  id : option Z;
  user : option User.t;
  password : option string
}.

Definition new : t := {| id := None; user := None; password := None |}.

Definition set_user (v : option User.t) (c : t) : t :=
  mk (id c) v (password c).
Definition set_password (v : option string) (c : t) : t :=
  mk (id c) (user c) v.
End UserCredential.

Global Instance UserCredential_eq_dec : EqDecision UserCredential.t.
Proof. solve_decision. Defined.

(** A row of the credential table: the relation is kept as the foreign
    key [row_user]. *)
Record CredentialRow := mkCredentialRow {
  row_id : Z;
  row_user : option Z;
  row_password : option string
}.

Global Instance CredentialRow_eq_dec : EqDecision CredentialRow.
Proof. solve_decision. Defined.

(** The [data: any] payload of [postUser]: a field that is [undefined]
    (or missing) is [None]. *)
Module Payload.
Record t := mk {
  id : option Z;
  email : option string;
  username : option string;
  nickname : option string;
  sex : option Z;
  motto : option string;
  description : option string;
  privilege : option Z;
  password : option string
}.
End Payload.

(** The lookup key of [getUserInfo], [data: number | string]; numeric
    keys are the integer ids. *)
Inductive Key :=
| KNum (n : Z)
| KStr (s : string).

Global Instance Key_eq_dec : EqDecision Key.
Proof. solve_decision. Defined.

Inductive OrderBy := ById | ByUsername | ByCreatedAt.
Inductive Order := ASC | DESC.

Global Instance OrderBy_eq_dec : EqDecision OrderBy.
Proof. solve_decision. Defined.
Global Instance Order_eq_dec : EqDecision Order.
Proof. solve_decision. Defined.

(** ** JavaScript truthiness *)

Definition truthy_num (v : option Z) : bool :=
  match v with
  | Some n => negb (n =? 0)
  | None => false
  end.

Definition truthy_str (v : option string) : bool :=
  match v with
  | Some s => negb (String.eqb s "")
  | None => false
  end.

Definition truthy_key (k : Key) : bool :=
  match k with
  | KNum n => truthy_num (Some n)
  | KStr s => truthy_str (Some s)
  end.

(** [d === undefined ? old : d] *)
Definition orUndefined {A} (d old : option A) : option A :=
  match d with
  | None => old
  | Some v => Some v
  end.

(** ** The world *)

(** The repository calls the code makes, with their arguments. *)
Inductive Call :=
| UserFindOne (by_ : string) (data : Key)
| UserGetMany (orderBy : OrderBy) (order : Order) (offset limit : Z)
| UserSave (user : User.t)
| UserRemove (user : User.t)
| CredentialFindOne (userId : Z)
| CredentialSave (userCredential : UserCredential.t).

Global Instance Call_eq_dec : EqDecision Call.
Proof. solve_decision. Defined.

Record World := mkWorld {
  users : list User.t;
  credentials : list CredentialRow;
  nextUserId : Z;
  nextCredentialId : Z;
  trace : list Call;            (* repository calls, oldest first *)
  console : list JsError;       (* console.error, oldest first *)
  unhandled : list JsError      (* rejections of promises nobody awaits *)
}.

Definition set_users (v : list User.t) (w : World) : World :=
  mkWorld v (credentials w) (nextUserId w) (nextCredentialId w)
          (trace w) (console w) (unhandled w).
Definition set_credentials (v : list CredentialRow) (w : World) : World :=
  mkWorld (users w) v (nextUserId w) (nextCredentialId w)
          (trace w) (console w) (unhandled w).
Definition set_nextUserId (v : Z) (w : World) : World :=
  mkWorld (users w) (credentials w) v (nextCredentialId w)
          (trace w) (console w) (unhandled w).
Definition set_nextCredentialId (v : Z) (w : World) : World :=
  mkWorld (users w) (credentials w) (nextUserId w) v
          (trace w) (console w) (unhandled w).
Definition record_call (c : Call) (w : World) : World :=
  mkWorld (users w) (credentials w) (nextUserId w) (nextCredentialId w)
          (trace w ++ [c]) (console w) (unhandled w).
Definition record_console (e : JsError) (w : World) : World :=
  mkWorld (users w) (credentials w) (nextUserId w) (nextCredentialId w)
          (trace w) (console w ++ [e]) (unhandled w).
Definition record_unhandled (e : JsError) (w : World) : World :=
  mkWorld (users w) (credentials w) (nextUserId w) (nextCredentialId w)
          (trace w) (console w) (unhandled w ++ [e]).

(** ** What the code does not control *)

Record Config := mkConfig {
  need_confirmation : bool;           (* config.oj.policy.signup.need_confirmation *)
  default_page_user : option Z        (* config.oj.default.page.user *)
}.

(** The environment of a run: the configuration, the clock of the
    database, which repository calls the database rejects ([fault]), and
    the [updatePassword] method of the credential entity, whose class is
    not part of the model file: it either fulfils with the credential
    carrying the new hash or rejects.  [postUser] does not await that
    promise, so the environment also decides whether it has fulfilled (the
    hash is on the entity) by the time the credential is saved
    ([fulfils_before_save]).  Last, [coerced_match] is the comparison the
    database makes between a column and a key of the other JavaScript type
    (a string against [id], a number against [username] or [email]): the
    coercion is the database's. *)
Record Env := mkEnv {
  config : Config;
  now : Z;
  fault : Call -> option JsError;
  updatePassword : UserCredential.t -> string -> JsError + UserCredential.t;
  fulfils_before_save : UserCredential.t -> string -> bool;
  coerced_match : string -> Key -> User.t -> bool
}.

(** Modelled from the spec: [UserPrivilege.isEnabled] of init/privilege,
    which is not among the sources; the spec's data model has
    [Disabled=0] and [Enabled=1]. *)
Definition UserPrivilege_isEnabled : Z := 1.

(** ** Promises as computations *)

Definition M (A : Type) : Type := World -> (JsError + A) * World.

Global Instance M_ret : MRet M := fun A x w => (inr x, w).
Global Instance M_bind : MBind M := fun A B f c w =>
  match c w with
  | (inr x, w') => f x w'
  | (inl e, w') => (inl e, w')
  end.

Definition throw {A} (e : JsError) : M A := fun w => (inl e, w).

(** [promise.catch(handler)] *)
Definition catch {A} (c : M A) (handler : JsError -> M A) : M A := fun w =>
  match c w with
  | (inl e, w') => handler e w'
  | r => r
  end.

Definition console_error (e : JsError) : M unit := fun w =>
  (inr tt, record_console e w).

(** ** The repositories

    [getRepository(User)] and [getRepository(UserCredential)] over the two
    tables.  Every call is recorded in the trace, then the environment may
    reject it. *)

Definition eqb_opt {A} `{EqDecision A} (a b : option A) : bool :=
  bool_decide (a = b).

(** The [where: { [by]: data }] condition of [findOne].  The code hands
    the key to the database as it is: a key of the column's type is
    compared with the column, a key of the other JavaScript type (a string
    against [id], a number against [username] or [email]) is compared the
    way the database coerces it. *)
Definition matches (env : Env) (by_ : string) (data : Key) (u : User.t) : bool :=
  if String.eqb by_ "id" then
    match data with
    | KNum n => eqb_opt (User.id u) (Some n)
    | KStr _ => coerced_match env by_ data u
    end
  else if String.eqb by_ "username" then
    match data with
    | KStr s => eqb_opt (User.username u) (Some s)
    | KNum _ => coerced_match env by_ data u
    end
  else if String.eqb by_ "email" then
    match data with
    | KStr s => eqb_opt (User.email u) (Some s)
    | KNum _ => coerced_match env by_ data u
    end
  else false.

Definition userRepository_findOne (env : Env) (by_ : string) (data : Key)
  : M (option User.t) := fun w =>
  let w := record_call (UserFindOne by_ data) w in
  match fault env (UserFindOne by_ data) with
  | Some err => (inl err, w)
  | None => (inr (List.find (matches env by_ data) (users w)), w)
  end.

(** [ORDER BY user.<orderBy> <order>]: NULL sorts lowest. *)
Definition leb_option {A} (leb : A -> A -> bool) (a b : option A) : bool :=
  match a, b with
  | None, _ => true
  | Some _, None => false
  | Some x, Some y => leb x y
  end.

Definition column_leb (orderBy : OrderBy) (u v : User.t) : bool :=
  match orderBy with
  | ById => leb_option Z.leb (User.id u) (User.id v)
  | ByUsername => leb_option String.leb (User.username u) (User.username v)
  | ByCreatedAt => leb_option Z.leb (User.createdAt u) (User.createdAt v)
  end.

Definition row_leb (orderBy : OrderBy) (order : Order) (u v : User.t) : bool :=
  match order with
  | ASC => column_leb orderBy u v
  | DESC => column_leb orderBy v u
  end.

Fixpoint insert_by {A} (leb : A -> A -> bool) (x : A) (l : list A) : list A :=
  match l with
  | [] => [x]
  | y :: l' => if leb x y then x :: l else y :: insert_by leb x l'
  end.

Definition sort_by {A} (leb : A -> A -> bool) (l : list A) : list A :=
  foldr (insert_by leb) [] l.

(** The [select([...])] list of [getUserList]: the other columns stay
    undefined on the entities returned. *)
Definition select_public (u : User.t) : User.t :=
  {| User.id := User.id u; User.email := User.email u;
     User.username := User.username u; User.nickname := User.nickname u;
     User.sex := User.sex u; User.motto := None; User.description := None;
     User.privilege := User.privilege u; User.createdAt := None |}.

(** The ordered sequence a list query pages through. *)
Definition ordered_rows (orderBy : OrderBy) (order : Order) (rows : list User.t)
  : list User.t :=
  select_public <$> sort_by (row_leb orderBy order) rows.

Definition userRepository_getMany (env : Env) (orderBy : OrderBy) (order : Order)
    (offset limit : Z) : M (list User.t) := fun w =>
  let w := record_call (UserGetMany orderBy order offset limit) w in
  match fault env (UserGetMany orderBy order offset limit) with
  | Some err => (inl err, w)
  | None =>
      (inr (take (Z.to_nat limit)
              (drop (Z.to_nat offset) (ordered_rows orderBy order (users w)))), w)
  end.

(** ** getUserInfo (user.ts, lines 12-33) *)

Definition valid_by (by_ : string) : bool :=
  String.eqb by_ "id" || String.eqb by_ "username" || String.eqb by_ "email".

Definition getUserInfo (env : Env) (data : Key) (by_ : option string)
  : M (option User.t) :=
  let by_ := default "id" by_ in
  (* Validate parameters. *)
  if negb (truthy_key data) || negb (valid_by by_) then
    throw (createError 500 "Invalid parameters.")
  else
    userInfo ← catch (userRepository_findOne env by_ data)
                 (fun err =>
                    console_error err;;
                    throw (createError 500 "Database operation failed."));
    mret userInfo.

(** ** getUserList (user.ts, lines 35-74) *)

(** [config.oj.default.page.user || 20] *)
Definition default_num (cfg : Config) : Z :=
  if truthy_num (default_page_user cfg)
  then default 20 (default_page_user cfg) else 20.

Definition getUserList (env : Env) (orderBy : option OrderBy)
    (order : option Order) (page num : option Z) : M (list User.t) :=
  let orderBy := default ById orderBy in
  let order := default ASC order in
  let page := default 1 page in
  let num := default (default_num (config env)) num in
  (* Validate parameters. *)
  if (page <? 1) || (num <? 1) then
    throw (createError 500 "Invalid parameters.")
  else
    let firstResult := (page - 1) * num in
    userList ← catch (userRepository_getMany env orderBy order firstResult num)
                 (fun err =>
                    console_error err;;
                    throw (createError 500 "Database operation failed."));
    if (Z.of_nat (length userList) =? 0) then
      throw (createError 404 "No matching result.")
    else mret userList.

(** ** The write side of the repositories *)

Definition defined {A} (v : option A) : bool :=
  match v with Some _ => true | None => false end.

Definition ER_DUP_ENTRY : JsError :=
  {| status := None; errno := Some 1062; message := "ER_DUP_ENTRY" |}.

(** Modelled from the spec: the unique indexes of the user table, whose
    entity class is not among the sources ("email and username are
    globally unique").  A save is refused when another row already holds
    the email or the username; NULL collides with nothing. *)
Definition duplicate_entry (u : User.t) (rows : list User.t) : bool :=
  existsb (fun r =>
    negb (eqb_opt (User.id r) (User.id u)) &&
    ((defined (User.email u) && eqb_opt (User.email r) (User.email u)) ||
     (defined (User.username u) && eqb_opt (User.username r) (User.username u))))
    rows.

Definition has_row (i : option Z) (rows : list User.t) : bool :=
  defined i && existsb (fun r => eqb_opt (User.id r) i) rows.

Definition replace_row (u : User.t) (rows : list User.t) : list User.t :=
  (fun r => if eqb_opt (User.id r) (User.id u) then u else r) <$> rows.

(** [userRepository.save(user)]: updates the row of [user.id] when there is
    one, inserts otherwise; an insert fills in the generated [id] and
    [createdAt] on the entity. *)
Definition userRepository_save (env : Env) (user : User.t) : M User.t := fun w =>
  let w := record_call (UserSave user) w in
  match fault env (UserSave user) with
  | Some err => (inl err, w)
  | None =>
      if duplicate_entry user (users w) then (inl ER_DUP_ENTRY, w)
      else if has_row (User.id user) (users w) then
        (inr user, set_users (replace_row user (users w)) w)
      else
        let i := default (nextUserId w) (User.id user) in
        let user :=
          User.set_createdAt (orUndefined (User.createdAt user) (Some (now env)))
            (User.set_id (Some i) user) in
        (inr user,
         set_nextUserId (Z.max (nextUserId w) (i + 1))
           (set_users (users w ++ [user]) w))
  end.

(** [userRepository.remove(user)].  Modelled from the spec: the delete
    cascades to the credential rows of the user ("Deletion of Identity
    cascades to Credential"); the relation is declared in the entity
    classes, which are not among the sources. *)
Definition userRepository_remove (env : Env) (user : User.t) : M unit := fun w =>
  let w := record_call (UserRemove user) w in
  match fault env (UserRemove user) with
  | Some err => (inl err, w)
  | None =>
      if defined (User.id user) then
        (inr tt,
         set_credentials
           (List.filter (fun c => negb (eqb_opt (row_user c) (User.id user)))
              (credentials w))
           (set_users
              (List.filter (fun r => negb (eqb_opt (User.id r) (User.id user)))
                 (users w)) w))
      else (inr tt, w)
  end.

(** The row of a given id. *)
Definition find_user (i : Z) (rows : list User.t) : option User.t :=
  List.find (fun r => eqb_opt (User.id r) (Some i)) rows.

(** [userCredentialRepository.findOne] with the inner join on the user and
    [where: { user: data.id }]. *)
Definition userCredentialRepository_findOne (env : Env) (userId : Z)
  : M (option UserCredential.t) := fun w =>
  let w := record_call (CredentialFindOne userId) w in
  match fault env (CredentialFindOne userId) with
  | Some err => (inl err, w)
  | None =>
      (inr
         (match List.find (fun c => eqb_opt (row_user c) (Some userId)) (credentials w),
                find_user userId (users w) with
          | Some c, Some r =>
              Some {| UserCredential.id := Some (row_id c);
                      UserCredential.user := Some r;
                      UserCredential.password := row_password c |}
          | _, _ => None
          end), w)
  end.

Definition credential_row (i : Z) (c : UserCredential.t) : CredentialRow :=
  {| row_id := i;
     row_user := match UserCredential.user c with
                 | Some u => User.id u
                 | None => None
                 end;
     row_password := UserCredential.password c |}.

Definition userCredentialRepository_save (env : Env) (c : UserCredential.t)
  : M UserCredential.t := fun w =>
  let w := record_call (CredentialSave c) w in
  match fault env (CredentialSave c) with
  | Some err => (inl err, w)
  | None =>
      let i := default (nextCredentialId w) (UserCredential.id c) in
      if defined (UserCredential.id c) &&
         existsb (fun r => row_id r =? i) (credentials w) then
        (inr c,
         set_credentials
           ((fun r => if row_id r =? i then credential_row i c else r)
              <$> credentials w) w)
      else
        (inr (UserCredential.mk (Some i) (UserCredential.user c)
                (UserCredential.password c)),
         set_nextCredentialId (Z.max (nextCredentialId w) (i + 1))
           (set_credentials (credentials w ++ [credential_row i c]) w))
  end.

(** ** postUser (user.ts, lines 122-221) *)

(** A payload value that passes an [if (v)] test. *)
Definition if_truthy_num (v : option Z) : option Z :=
  if truthy_num v then v else None.
Definition if_truthy_str (v : option string) : option string :=
  if truthy_str v then v else None.

(** Reading a property of [undefined]. *)
Definition TypeError : JsError :=
  {| status := None; errno := None; message := "TypeError" |}.

(** Lines 174-181.  The promise of [updatePassword] is not awaited.  When
    it fulfils, the entity that the save of the credential later reads
    carries the new hash only if the promise has fulfilled by then;
    otherwise the save reads the entity as it was, and the hash arrives on
    an object that is not saved again.  When it rejects, the handler logs
    the error and its [throw] rejects a promise that nothing awaits. *)
Definition updatePassword_unawaited (env : Env) (userCredential : UserCredential.t)
    (password : string) : M UserCredential.t := fun w =>
  match updatePassword env userCredential password with
  | inr userCredential' =>
      (inr (if fulfils_before_save env userCredential password
            then userCredential' else userCredential), w)
  | inl err =>
      (inr userCredential,
       record_unhandled (createError 500 "Update user password failed.")
         (record_console err w))
  end.

(** Lines 124-188: the two entities as they stand before anything is
    written. *)
Definition postUser_entities (env : Env) (data : Payload.t)
  : M (User.t * UserCredential.t) :=
  (* Verify parameters. *)
  if negb (truthy_str (Payload.email data) && truthy_str (Payload.username data)) then
    throw (createError 500 "Invalid parameters.")
  else
    '(user, userCredential) ←
      match if_truthy_num (Payload.id data) with
      | Some data_id =>
          userCredentialInfo ←
            catch (userCredentialRepository_findOne env data_id)
              (fun err =>
                 console_error err;;
                 throw (createError 500 "Database operation failed."));
          match userCredentialInfo with
          | None => throw (createError 400 "User does not exist.")
          | Some userCredential =>
              match UserCredential.user userCredential with
              | None => throw TypeError
              | Some user =>
                  (* Update privilege. *)
                  mret (User.set_privilege
                          (orUndefined (Payload.privilege data) (User.privilege user))
                          user,
                        userCredential)
              end
          end
      | None =>
          let user := User.new in
          let userCredential := UserCredential.new in
          mret (User.set_privilege
                  (if need_confirmation (config env) && negb (defined (User.createdAt user))
                   then Some 0 else Some UserPrivilege_isEnabled)
                  user,
                userCredential)
      end;
    (* Update password. *)
    userCredential ←
      match if_truthy_str (Payload.password data) with
      | Some password => updatePassword_unawaited env userCredential password
      | None => mret userCredential
      end;
    let user := User.set_email (orUndefined (Payload.email data) (User.email user)) user in
    let user := User.set_username (orUndefined (Payload.username data) (User.username user)) user in
    let user := User.set_nickname (orUndefined (Payload.nickname data) (User.nickname user)) user in
    let user := User.set_sex (orUndefined (Payload.sex data) (User.sex user)) user in
    let user := User.set_motto (orUndefined (Payload.motto data) (User.motto user)) user in
    let user := User.set_description (orUndefined (Payload.description data) (User.description user)) user in
    mret (user, userCredential).

(** Lines 190-219: the identity is written first, then the credential;
    when the second write is rejected the first is reverted. *)
Definition postUser_persist (env : Env) (user : User.t)
    (userCredential : UserCredential.t) : M User.t :=
  user ← catch (userRepository_save env user)
           (fun err =>
              if eqb_opt (errno err) (Some 1062) then
                throw (createError 400 "Username or email taken.")
              else
                console_error err;;
                throw (createError 500 "Database operation failed."));
  let userCredential := UserCredential.set_user (Some user) userCredential in
  _ ← catch (userCredentialRepository_save env userCredential)
        (fun err =>
           console_error err;;
           (* Revert adding user. *)
           catch (userRepository_remove env user)
             (fun e =>
                console_error e;;
                throw (createError 500
                         "Database operation failed. Reverting failed as well."));;
           throw (createError 500 "Database operation failed."));
  mret user.

Definition postUser (env : Env) (data : Payload.t) : M User.t :=
  '(user, userCredential) ← postUser_entities env data;
  postUser_persist env user userCredential.

(** ** searchUser (user.ts, lines 76-120) *)

(** What the database decides for the search query: the LIKE operator
    (pattern first, column value second; its wildcards and its collation
    are the database's) and whether the query is rejected.  The trace of
    the world has no entry for this query. *)
Record SearchDb := mkSearchDb {
  like : string -> string -> bool;
  search_fault : string -> OrderBy -> Order -> Z -> Z -> option JsError
}.

(** [column LIKE :keyword]; NULL is like nothing. *)
Definition like_column (db : SearchDb) (pattern : string) (v : option string) : bool :=
  match v with
  | Some s => like db pattern s
  | None => false
  end.

(** The [where ... orWhere ... orWhere] condition with the parameter
    [`%${keyword}%`]. *)
Definition search_where (db : SearchDb) (keyword : string) (u : User.t) : bool :=
  let pattern := "%" ++ keyword ++ "%" in
  like_column db pattern (User.username u) ||
  like_column db pattern (User.email u) ||
  like_column db pattern (User.nickname u).

Definition userRepository_search (db : SearchDb) (keyword : string)
    (orderBy : OrderBy) (order : Order) (offset limit : Z)
  : M (list User.t) := fun w =>
  match search_fault db keyword orderBy order offset limit with
  | Some err => (inl err, w)
  | None =>
      (inr (take (Z.to_nat limit)
              (drop (Z.to_nat offset)
                 (ordered_rows orderBy order
                    (List.filter (search_where db keyword) (users w))))), w)
  end.

Definition searchUser (env : Env) (db : SearchDb) (keyword : string)
    (orderBy : option OrderBy) (order : option Order) (page num : option Z)
  : M (list User.t) :=
  let orderBy := default ById orderBy in
  let order := default ASC order in
  let page := default 1 page in
  let num := default (default_num (config env)) num in
  (* Validate parameters. *)
  if (page <? 1) || (num <? 1) || negb (truthy_str (Some keyword)) then
    throw (createError 500 "Invalid parameters.")
  else
    let firstResult := (page - 1) * num in
    searchResult ← catch (userRepository_search db keyword orderBy order firstResult num)
                     (fun err =>
                        console_error err;;
                        throw (createError 500 "Database operation failed."));
    if (Z.of_nat (length searchResult) =? 0) then
      throw (createError 404 "No matching result.")
    else mret searchResult.

(** ** validateUserInfo (user.ts, lines 223-277) *)

(** [config.oj.policy.profile]: a bound that is undefined or 0 is not
    enforced. *)
Record ProfilePolicy := mkProfilePolicy {
  username_min_length : option Z;
  password_min_length : option Z;
  password_max_length : option Z;
  nickname_min_length : option Z;
  nickname_max_length : option Z
}.

(** [v.length] counts UTF-16 code units.  A Rocq string holds the bytes
    of the UTF-8 encoding, so the code units are counted from the bytes: an
    ASCII byte and the lead byte of a two- or three-byte sequence stand for
    one code unit, the lead byte of a four-byte sequence (a character
    outside the basic plane, a surrogate pair in JavaScript) for two, and a
    continuation byte for none. *)
Definition utf16_units (c : ascii) : nat :=
  let b := nat_of_ascii c in
  if (b <? 128)%nat then 1%nat
  else if (b <? 192)%nat then 0%nat
  else if (b <? 240)%nat then 1%nat
  else 2%nat.

Fixpoint utf16_length (s : string) : nat :=
  match s with
  | EmptyString => 0%nat
  | String c s' => (utf16_units c + utf16_length s')%nat
  end.

Definition js_length (v : option string) : Z :=
  match v with
  | Some s => Z.of_nat (utf16_length s)
  | None => 0
  end.

(** [v && bound && v.length < bound] *)
Definition shorter_than (v : option string) (bound : option Z) : bool :=
  truthy_str v && truthy_num bound && (js_length v <? default 0 bound).

(** [v && bound && v.length > bound] *)
Definition longer_than (v : option string) (bound : option Z) : bool :=
  truthy_str v && truthy_num bound && (default 0 bound <? js_length v).

(** The function is [async] but awaits nothing: its promise is settled at
    once, rejected by a [throw] and fulfilled with [true] otherwise.
    [validate] is [emailValidator.validate]. *)
Definition validateUserInfo (policy : ProfilePolicy) (validate : string -> bool)
    (data : Payload.t) : JsError + bool :=
  if shorter_than (Payload.username data) (username_min_length policy) then
    inl (createError 400 "Username too short.")
  (* Password Complexity Check: To be implemented. *)
  else if shorter_than (Payload.password data) (password_min_length policy) then
    inl (createError 400 "Password too long.")
  else if longer_than (Payload.password data) (password_max_length policy) then
    inl (createError 400 "Password too long.")
  else if shorter_than (Payload.nickname data) (nickname_min_length policy) then
    inl (createError 400 "Nickname too short.")
  else if longer_than (Payload.nickname data) (nickname_max_length policy) then
    inl (createError 400 "Nickname too long.")
  else if truthy_str (Payload.email data) &&
          negb (validate (default "" (Payload.email data))) then
    inl (createError 400 "Invalid email.")
  else inr true.

(** ** Sample environments and worlds *)

Definition PolicyViolationError : JsError :=
  {| status := Some 400; errno := None; message := "Password length out of bounds." |}.

(** Modelled from the spec: [UserCredential.updatePassword] of
    entities/user_credential, which is not among the sources: it
    "validates newPlaintext against policy-supplied length bounds, then
    replaces the stored hash" and "fails with PolicyViolationError when
    length bounds are violated".  The hash function is a parameter. *)
Definition updatePassword_policy (min_length max_length : Z) (hash : string -> string)
    (c : UserCredential.t) (password : string) : JsError + UserCredential.t :=
  let n := Z.of_nat (String.length password) in
  if (n <? min_length) || (max_length <? n) then inl PolicyViolationError
  else inr (UserCredential.set_password (Some (hash password)) c).

Definition no_fault : Call -> option JsError := fun _ => None.

(** A coercion for the samples: a string key matches the id whose decimal
    notation it is, a numeric key matches the username or email that is its
    decimal notation. *)
Definition decimal_match (by_ : string) (data : Key) (u : User.t) : bool :=
  match data with
  | KStr s =>
      match User.id u with
      | Some n => String.eqb s (pretty n)
      | None => false
      end
  | KNum n =>
      match (if String.eqb by_ "username" then User.username u else User.email u) with
      | Some s => String.eqb s (pretty n)
      | None => false
      end
  end.

(** In the sample environment the hash of [updatePassword] is on the
    entity before the credential is saved. *)
Definition sample_env (confirm : bool) (fault : Call -> option JsError) : Env :=
  {| config := {| need_confirmation := confirm; default_page_user := Some 20 |};
     now := 1514764800;
     fault := fault;
     updatePassword := updatePassword_policy 6 32 (fun s => "hashed:" ++ s);
     fulfils_before_save := fun _ _ => true;
     coerced_match := decimal_match |}.

(** The same environment with a hash that completes only after the
    credential has been saved. *)
Definition slow_hash_env (confirm : bool) (fault : Call -> option JsError) : Env :=
  {| config := {| need_confirmation := confirm; default_page_user := Some 20 |};
     now := 1514764800;
     fault := fault;
     updatePassword := updatePassword_policy 6 32 (fun s => "hashed:" ++ s);
     fulfils_before_save := fun _ _ => false;
     coerced_match := decimal_match |}.

Definition empty_world : World :=
  {| users := []; credentials := []; nextUserId := 1; nextCredentialId := 1;
     trace := []; console := []; unhandled := [] |}.

Definition user_zk : User.t :=
  {| User.id := Some 1; User.email := Some "zk@codgi.cc";
     User.username := Some "zk"; User.nickname := Some "ZK";
     User.sex := Some 1; User.motto := Some "hello";
     User.description := Some "first user"; User.privilege := Some 1;
     User.createdAt := Some 1500000000 |}.

(** One identity with its credential. *)
Definition seeded_world : World :=
  {| users := [user_zk];
     credentials := [ {| row_id := 1; row_user := Some 1;
                         row_password := Some "hashed:CorrectPassword" |} ];
     nextUserId := 2; nextCredentialId := 2;
     trace := []; console := []; unhandled := [] |}.

Definition signup (email username : string) (password : option string) : Payload.t :=
  {| Payload.id := None; Payload.email := Some email;
     Payload.username := Some username; Payload.nickname := None;
     Payload.sex := None; Payload.motto := None; Payload.description := None;
     Payload.privilege := None; Payload.password := password |}.

(** Rejects every save of a credential. *)
Definition credential_save_fails : Call -> option JsError := fun c =>
  match c with
  | CredentialSave _ =>
      Some {| status := None; errno := Some 1205; message := "ER_LOCK_WAIT_TIMEOUT" |}
  | _ => None
  end.

(** Rejects every save of a credential and every removal of a user. *)
Definition credential_save_and_remove_fail : Call -> option JsError := fun c =>
  match c with
  | CredentialSave _ | UserRemove _ =>
      Some {| status := None; errno := Some 1205; message := "ER_LOCK_WAIT_TIMEOUT" |}
  | _ => None
  end.

(** A table of [n] identities with ids 1..n, and its world. *)
Definition numbered_user (i : nat) : User.t :=
  {| User.id := Some (Z.of_nat i); User.email := Some ("u" ++ pretty i ++ "@codgi.cc");
     User.username := Some ("u" ++ pretty i); User.nickname := None;
     User.sex := None; User.motto := None; User.description := None;
     User.privilege := Some 1; User.createdAt := Some (1500000000 - Z.of_nat i) |}.

Definition numbered_world (n : nat) : World :=
  {| users := numbered_user <$> seq 1 n; credentials := [];
     nextUserId := Z.of_nat n + 1; nextCredentialId := 1;
     trace := []; console := []; unhandled := [] |}.

(** A LIKE for the samples: [%] stands for any run of characters, [_] for
    one character, anything else for itself (case-sensitive). *)
Fixpoint like_sample (pattern value : string) : bool :=
  match pattern with
  | EmptyString =>
      match value with EmptyString => true | String _ _ => false end
  | String c pattern' =>
      if Ascii.eqb c "%"%char then
        (fix any (v : string) : bool :=
           like_sample pattern' v ||
           match v with EmptyString => false | String _ v' => any v' end) value
      else
        match value with
        | EmptyString => false
        | String d value' =>
            (Ascii.eqb c "_"%char || Ascii.eqb c d) && like_sample pattern' value'
        end
  end.

Definition sample_db : SearchDb :=
  {| like := like_sample; search_fault := fun _ _ _ _ _ => None |}.

Definition failing_db (err : JsError) : SearchDb :=
  {| like := like_sample; search_fault := fun _ _ _ _ _ => Some err |}.

Definition ER_LOCK_WAIT_TIMEOUT : JsError :=
  {| status := None; errno := Some 1205; message := "ER_LOCK_WAIT_TIMEOUT" |}.

(** Rejects every call. *)
Definition database_down : Call -> option JsError := fun _ => Some ER_LOCK_WAIT_TIMEOUT.

(** Rejects every save of an identity. *)
Definition user_save_fails : Call -> option JsError := fun c =>
  match c with
  | UserSave _ => Some ER_LOCK_WAIT_TIMEOUT
  | _ => None
  end.

Definition sample_policy : ProfilePolicy :=
  {| username_min_length := Some 3; password_min_length := Some 6;
     password_max_length := Some 32; nickname_min_length := None;
     nickname_max_length := Some 16 |}.

(** An email check for the samples: the address has an at sign. *)
Fixpoint has_at (s : string) : bool :=
  match s with
  | EmptyString => false
  | String c s' => Ascii.eqb c "@"%char || has_at s'
  end.

Definition payload_of (id_ : option Z) (email username nickname password : option string)
  : Payload.t :=
  {| Payload.id := id_; Payload.email := email; Payload.username := username;
     Payload.nickname := nickname; Payload.sex := None; Payload.motto := None;
     Payload.description := None; Payload.privilege := None;
     Payload.password := password |}.

(** ** Vocabulary of the properties *)

(** The page that the query of [getUserList] selects. *)
Definition page_of (orderBy : OrderBy) (order : Order) (page num : Z)
    (rows : list User.t) : list User.t :=
  take (Z.to_nat num)
    (drop (Z.to_nat ((page - 1) * num)) (ordered_rows orderBy order rows)).

(** Lines 183-188 of [postUser] as one function of the payload. *)
Definition patch_profile (data : Payload.t) (user : User.t) : User.t :=
  {| User.id := User.id user;
     User.email := orUndefined (Payload.email data) (User.email user);
     User.username := orUndefined (Payload.username data) (User.username user);
     User.nickname := orUndefined (Payload.nickname data) (User.nickname user);
     User.sex := orUndefined (Payload.sex data) (User.sex user);
     User.motto := orUndefined (Payload.motto data) (User.motto user);
     User.description := orUndefined (Payload.description data) (User.description user);
     User.privilege := User.privilege user;
     User.createdAt := User.createdAt user |}.

(** The entity that [postUser] starts from: the stored identity with the
    privilege of the payload when the payload has a truthy id, a fresh one
    with the initial privilege otherwise. *)
Definition base_user (env : Env) (data : Payload.t) (w : World) (base : User.t) : Prop :=
  match if_truthy_num (Payload.id data) with
  | Some i =>
      exists old, find_user i (users w) = Some old /\
        base = User.set_privilege
                 (orUndefined (Payload.privilege data) (User.privilege old)) old
  | None =>
      base = User.set_privilege
               (Some (if need_confirmation (config env) then 0
                      else UserPrivilege_isEnabled)) User.new
  end.

(** How a stored field relates to the payload: set when the payload has
    the field, left as it was when the payload has it undefined. *)
Definition patched {A} (d old new : option A) : Prop :=
  match d with
  | Some v => new = Some v
  | None => new = old
  end.

(** A profile edit of identity 1 that sets the nickname and the motto and
    leaves the rest undefined. *)
Definition edit_zk : Payload.t :=
  {| Payload.id := Some 1; Payload.email := Some "zk@codgi.cc";
     Payload.username := Some "zk"; Payload.nickname := Some "Zed";
     Payload.sex := None; Payload.motto := Some "bye";
     Payload.description := None; Payload.privilege := None;
     Payload.password := None |}.

(** The profile update by which identity 1 gives itself privilege 255. *)
Definition escalate_zk : Payload.t :=
  {| Payload.id := Some 1; Payload.email := Some "zk@codgi.cc";
     Payload.username := Some "zk"; Payload.nickname := None;
     Payload.sex := None; Payload.motto := None;
     Payload.description := None; Payload.privilege := Some 255;
     Payload.password := None |}.

(** The claim C6 for an authorization decision [canChangePrivilege]: a
    successful update changes the stored privilege only when the decision,
    taken for the acting privilege, permits the change. *)
Definition privilege_change_authorized
    (canChangePrivilege : Z -> option Z -> option Z -> bool) : Prop :=
  forall env data w u w' i old acting,
    if_truthy_num (Payload.id data) = Some i ->
    find_user i (users w) = Some old ->
    postUser env data w = (inr u, w') ->
    User.privilege u <> User.privilege old ->
    canChangePrivilege acting (User.privilege old) (User.privilege u) = true.

(** The primary key of the user table: ids are distinct and below the
    next id to be generated. *)
Definition distinct_ids (w : World) : Prop :=
  NoDup (User.id <$> users w) /\
  forall u, u ∈ users w -> exists i, User.id u = Some i /\ i < nextUserId w.

(** The order of a list query, as a relation on rows. *)
Definition row_le (orderBy : OrderBy) (order : Order) (u v : User.t) : Prop :=
  row_leb orderBy order u v = true.

(** The rows a search selects, in the order asked for. *)
Definition search_rows (db : SearchDb) (keyword : string) (orderBy : OrderBy)
    (order : Order) (rows : list User.t) : list User.t :=
  ordered_rows orderBy order (List.filter (search_where db keyword) rows).

(** Every credential refers to an identity whose id has been generated. *)
Definition credentials_refer_below (w : World) : Prop :=
  forall c, c ∈ credentials w -> exists i, row_user c = Some i /\ i < nextUserId w.

(** The two tables agree with the id generator. *)
Definition well_formed (w : World) : Prop :=
  distinct_ids w /\ credentials_refer_below w.

(** The credential that an answered [findOne] of [postUser] loads for an
    id: the first credential row referring to the id, joined with its
    identity. *)
Definition stored_credential (i : Z) (w : World) : option UserCredential.t :=
  match List.find (fun c => eqb_opt (row_user c) (Some i)) (credentials w),
        find_user i (users w) with
  | Some c, Some r =>
      Some {| UserCredential.id := Some (row_id c);
              UserCredential.user := Some r;
              UserCredential.password := row_password c |}
  | _, _ => None
  end.

(** The credential entity that the save of [postUser] reads after lines
    174-181: the one [updatePassword] fulfils with when the payload has a
    non-empty password, the update is accepted and its promise has
    fulfilled before the credential is saved; the one before otherwise. *)
Definition credential_after_password (env : Env) (data : Payload.t)
    (c : UserCredential.t) : UserCredential.t :=
  match if_truthy_str (Payload.password data) with
  | Some password =>
      match updatePassword env c password with
      | inr c' => if fulfils_before_save env c password then c' else c
      | inl _ => c
      end
  | None => c
  end.

(** A field that is present and not empty meets a bound that is set
    (defined and not 0); its length is the [.length] of the code, in
    UTF-16 code units. *)
Definition at_least (v : option string) (bound : option Z) : Prop :=
  forall s m, v = Some s -> s <> "" -> bound = Some m -> m <> 0 ->
    m <= Z.of_nat (utf16_length s).

Definition at_most (v : option string) (bound : option Z) : Prop :=
  forall s m, v = Some s -> s <> "" -> bound = Some m -> m <> 0 ->
    Z.of_nat (utf16_length s) <= m.

(** What [validateUserInfo] lets through, field by field. *)
Definition within_policy (policy : ProfilePolicy) (validate : string -> bool)
    (data : Payload.t) : Prop :=
  at_least (Payload.username data) (username_min_length policy) /\
  at_least (Payload.password data) (password_min_length policy) /\
  at_most (Payload.password data) (password_max_length policy) /\
  at_least (Payload.nickname data) (nickname_min_length policy) /\
  at_most (Payload.nickname data) (nickname_max_length policy) /\
  (forall s, Payload.email data = Some s -> s <> "" -> validate s = true).

(** The messages of [validateUserInfo]. *)
Definition validation_messages : list string :=
  ["Username too short."; "Password too long."; "Nickname too short.";
   "Nickname too long."; "Invalid email."].

(** * Properties *)

Ltac run :=
  unfold mbind, M_bind, mret, M_ret, throw, catch, console_error in *.

(** ** Reading: getUserInfo *)

Lemma truthy_key_false (data : Key) :
  truthy_key data = false <-> data = KNum 0 \/ data = KStr "".
Proof.
  destruct data as [n|s]; simpl.
  - rewrite negb_false_iff, Z.eqb_eq. split.
    + intros ->. now left.
    + intros [H|H]; congruence.
  - rewrite negb_false_iff, String.eqb_eq. split.
    + intros ->. now right.
    + intros [H|H]; congruence.
Qed.

Lemma valid_by_false (by_ : string) :
  valid_by by_ = false <-> by_ <> "id" /\ by_ <> "username" /\ by_ <> "email".
Proof.
  unfold valid_by. rewrite !orb_false_iff, !String.eqb_neq. tauto.
Qed.

Lemma getUserInfo_invalid env data by_ w :
  truthy_key data = false \/ valid_by (default "id" by_) = false ->
  getUserInfo env data by_ w = (inl (createError 500 "Invalid parameters."), w).
Proof.
  intros H. unfold getUserInfo.
  destruct H as [-> | ->]; [reflexivity|].
  now rewrite orb_true_r.
Qed.

Lemma getUserInfo_valid env data by_ w :
  truthy_key data = true -> valid_by (default "id" by_) = true ->
  fault env (UserFindOne (default "id" by_) data) = None ->
  getUserInfo env data by_ w =
    (inr (List.find (matches env (default "id" by_) data) (users w)),
     record_call (UserFindOne (default "id" by_) data) w).
Proof.
  intros Hk Hb Hf. unfold getUserInfo. rewrite Hk, Hb. simpl.
  run. unfold userRepository_findOne. now rewrite Hf.
Qed.

(** C10.  A falsy key (the number 0, the empty string) or a [by] outside
    id, username and email makes [getUserInfo] throw the invalid-parameter
    error (status 500, not the 404 of a miss), and the world is left as it
    was: no repository call was made. *)
Theorem getUserInfo_rejects_falsy_key_or_unknown_by env data by_ w :
  data = KNum 0 \/ data = KStr "" \/
  (default "id" by_ <> "id" /\ default "id" by_ <> "username" /\
   default "id" by_ <> "email") ->
  getUserInfo env data by_ w = (inl (createError 500 "Invalid parameters."), w) /\
  trace (snd (getUserInfo env data by_ w)) = trace w /\
  status (createError 500 "Invalid parameters.") <> Some 404.
Proof.
  intros H.
  assert (E : getUserInfo env data by_ w
              = (inl (createError 500 "Invalid parameters."), w)).
  { apply getUserInfo_invalid.
    rewrite truthy_key_false, valid_by_false. tauto. }
  rewrite E. repeat split. discriminate.
Qed.

Lemma getUserInfo_rejects_falsy_key_or_unknown_by_witness :
  getUserInfo (sample_env true no_fault) (KNum 0) None seeded_world
    = (inl (createError 500 "Invalid parameters."), seeded_world) /\
  getUserInfo (sample_env true no_fault) (KStr "") (Some "email") seeded_world
    = (inl (createError 500 "Invalid parameters."), seeded_world) /\
  getUserInfo (sample_env true no_fault) (KStr "zk") (Some "nickname") seeded_world
    = (inl (createError 500 "Invalid parameters."), seeded_world).
Proof.
  split; [|split].
  - apply (proj1 (getUserInfo_rejects_falsy_key_or_unknown_by
             (sample_env true no_fault) (KNum 0) None seeded_world
             (or_introl eq_refl))).
  - apply (proj1 (getUserInfo_rejects_falsy_key_or_unknown_by
             (sample_env true no_fault) (KStr "") (Some "email") seeded_world
             (or_intror (or_introl eq_refl)))).
  - refine (proj1 (getUserInfo_rejects_falsy_key_or_unknown_by
             (sample_env true no_fault) (KStr "zk") (Some "nickname") seeded_world
             (or_intror (or_intror _)))).
    simpl. split; [|split]; discriminate.
Defined.

(** C3, as the code has it.  For every truthy key and a [by] among id,
    username and email, when the database answers, [getUserInfo] fulfils
    with the result of the lookup: the identity that the database matches
    to the key when there is one (a key of the other JavaScript type being
    compared the way the database coerces it), and [undefined] (a success
    value, no NotFoundError) exactly when no identity matches. *)
Theorem getUserInfo_returns_lookup env data by_ w :
  truthy_key data = true ->
  valid_by (default "id" by_) = true ->
  fault env (UserFindOne (default "id" by_) data) = None ->
  exists o,
    fst (getUserInfo env data by_ w) = inr o /\
    (forall u, o = Some u ->
       u ∈ users w /\ matches env (default "id" by_) data u = true) /\
    (o = None <->
     forall u, u ∈ users w -> matches env (default "id" by_) data u = false).
Proof.
  intros Hk Hb Hf. rewrite (getUserInfo_valid _ _ _ _ Hk Hb Hf). simpl.
  eexists. split; [reflexivity|]. split.
  - intros u Hu. apply find_some in Hu. now rewrite list_elem_of_In.
  - split.
    + intros Hn u Hu. apply (find_none _ _ Hn). now rewrite <- list_elem_of_In.
    + intros Hall.
      destruct (List.find _ _) as [u|] eqn:E; [|reflexivity].
      apply find_some in E. destruct E as [Hin Hm].
      rewrite <- list_elem_of_In in Hin. rewrite (Hall u Hin) in Hm. discriminate.
Qed.

Lemma getUserInfo_returns_lookup_witness :
  exists o,
    fst (getUserInfo (sample_env true no_fault) (KStr "zk") (Some "username") seeded_world)
      = inr o /\
    (forall u, o = Some u ->
       u ∈ users seeded_world /\
       matches (sample_env true no_fault) "username" (KStr "zk") u = true) /\
    (o = None <->
     forall u, u ∈ users seeded_world ->
       matches (sample_env true no_fault) "username" (KStr "zk") u = false).
Proof.
  apply (getUserInfo_returns_lookup (sample_env true no_fault) (KStr "zk")
           (Some "username") seeded_world); reflexivity.
Defined.

(** A key of the other type: under the decimal coercion of the sample
    database the string "1" finds the identity of id 1. *)
Example getUserInfo_string_key_by_id :
  fst (getUserInfo (sample_env true no_fault) (KStr "1") (Some "id") seeded_world)
    = inr (Some user_zk).
Proof. vm_compute. reflexivity. Qed.

(** C3, as stated, fails: with no identity of id 2 the lookup fulfils with
    [undefined]; nothing is thrown. *)
Lemma getUserInfo_miss_is_not_an_error :
  fst (getUserInfo (sample_env true no_fault) (KNum 2) (Some "id") seeded_world)
    = inr None /\
  ~ (exists e, fst (getUserInfo (sample_env true no_fault) (KNum 2) (Some "id")
                      seeded_world) = inl e).
Proof.
  split; [reflexivity|]. intros [e H]. vm_compute in H. discriminate.
Qed.

(** ** Reading: getUserList *)

Lemma insert_by_perm {A} (leb : A -> A -> bool) (x : A) (l : list A) :
  insert_by leb x l ≡ₚ x :: l.
Proof.
  induction l as [|y l IH]; simpl; [reflexivity|].
  destruct (leb x y); [reflexivity|].
  rewrite IH. apply Permutation_swap.
Qed.

Lemma sort_by_perm {A} (leb : A -> A -> bool) (l : list A) :
  sort_by leb l ≡ₚ l.
Proof.
  induction l as [|x l IH]; simpl; [reflexivity|].
  rewrite insert_by_perm. now rewrite IH.
Qed.

Lemma select_public_id (u : User.t) : User.id (select_public u) = User.id u.
Proof. reflexivity. Qed.

Lemma ordered_rows_ids orderBy order rows :
  User.id <$> ordered_rows orderBy order rows ≡ₚ User.id <$> rows.
Proof.
  unfold ordered_rows. rewrite <- list_fmap_compose.
  change (User.id ∘ select_public) with User.id.
  now rewrite sort_by_perm.
Qed.

Lemma ordered_rows_NoDup orderBy order rows :
  NoDup (User.id <$> rows) -> NoDup (ordered_rows orderBy order rows).
Proof.
  intros H. apply (NoDup_fmap_1 User.id). now rewrite ordered_rows_ids.
Qed.

Lemma ordered_rows_length orderBy order rows :
  length (ordered_rows orderBy order rows) = length rows.
Proof.
  unfold ordered_rows. rewrite length_fmap.
  apply Permutation_length, sort_by_perm.
Qed.

(** Two windows of a duplicate-free list that do not overlap share no
    element. *)
Lemma slices_disjoint {A} (L : list A) (a n b m : nat) :
  NoDup L -> (a + n <= b)%nat ->
  forall x, x ∈ take n (drop a L) -> x ∉ take m (drop b L).
Proof.
  intros HL Hab x Hx Hx'.
  rewrite <- (take_drop a L) in HL. apply NoDup_app in HL as (_ & _ & HL).
  rewrite <- (take_drop n (drop a L)) in HL.
  apply NoDup_app in HL as (_ & Hdis & _).
  apply (Hdis x Hx).
  rewrite drop_drop.
  apply (subseteq_take m) in Hx'.
  replace b with ((a + n) + (b - (a + n)))%nat in Hx' by lia.
  rewrite <- drop_drop in Hx'.
  now apply (subseteq_drop (b - (a + n))) in Hx'.
Qed.

Section GetUserList.
Variable env : Env.
Variables (orderBy : option OrderBy) (order : option Order).
Variables (page num : option Z).

Let orderBy' := default ById orderBy.
Let order' := default ASC order.
Let page' := default 1 page.
Let num' := default (default_num (config env)) num.

Lemma getUserList_invalid w :
  page' < 1 \/ num' < 1 ->
  getUserList env orderBy order page num w
    = (inl (createError 500 "Invalid parameters."), w).
Proof.
  intros H. unfold getUserList. fold page' num'.
  assert ((page' <? 1) || (num' <? 1) = true) as ->; [|reflexivity].
  rewrite orb_true_iff, !Z.ltb_lt. exact H.
Qed.

Lemma getUserList_valid w :
  1 <= page' -> 1 <= num' ->
  getUserList env orderBy order page num w =
    let call := UserGetMany orderBy' order' ((page' - 1) * num') num' in
    match fault env call with
    | Some err =>
        (inl (createError 500 "Database operation failed."),
         record_console err (record_call call w))
    | None =>
        match page_of orderBy' order' page' num' (users w) with
        | [] => (inl (createError 404 "No matching result."), record_call call w)
        | l => (inr l, record_call call w)
        end
    end.
Proof.
  intros Hp Hn. unfold getUserList. fold orderBy' order' page' num'.
  assert ((page' <? 1) || (num' <? 1) = false) as ->.
  { rewrite orb_false_iff, !Z.ltb_ge. lia. }
  run. unfold userRepository_getMany. simpl.
  destruct (fault env _); [reflexivity|]. simpl.
  fold (page_of orderBy' order' page' num' (users w)).
  destruct (page_of _ _ _ _ _); reflexivity.
Qed.

Lemma getUserList_inr w l w' :
  getUserList env orderBy order page num w = (inr l, w') ->
  1 <= page' /\ 1 <= num' /\
  l = page_of orderBy' order' page' num' (users w) /\ l <> [] /\
  users w' = users w.
Proof.
  intros H.
  destruct (Z_lt_le_dec page' 1) as [Hp|Hp].
  { rewrite getUserList_invalid in H by tauto. discriminate. }
  destruct (Z_lt_le_dec num' 1) as [Hn|Hn].
  { rewrite getUserList_invalid in H by tauto. discriminate. }
  rewrite (getUserList_valid _ Hp Hn) in H. simpl in H.
  destruct (fault env _); [discriminate|].
  destruct (page_of _ _ _ _ _) eqn:E; [discriminate|].
  injection H as <- <-. repeat split; try assumption. discriminate.
Qed.

End GetUserList.

(** C4.  [getUserList] throws the invalid-parameter error whenever the
    page or the page size is below 1, and (the parameters being valid and
    the database answering) the not-found error whenever the page selected
    is empty, in particular when it starts beyond the last row; it never
    fulfils with an empty list. *)
Theorem getUserList_invalid_or_empty env orderBy order page num w :
  let page' := default 1 page in
  let num' := default (default_num (config env)) num in
  let call := UserGetMany (default ById orderBy) (default ASC order)
                ((page' - 1) * num') num' in
  (page' < 1 \/ num' < 1 ->
   getUserList env orderBy order page num w
     = (inl (createError 500 "Invalid parameters."), w)) /\
  (1 <= page' -> 1 <= num' -> fault env call = None ->
   page_of (default ById orderBy) (default ASC order) page' num' (users w) = [] ->
   fst (getUserList env orderBy order page num w)
     = inl (createError 404 "No matching result.")) /\
  (1 <= page' -> 1 <= num' -> fault env call = None ->
   Z.of_nat (length (users w)) <= (page' - 1) * num' ->
   fst (getUserList env orderBy order page num w)
     = inl (createError 404 "No matching result.")) /\
  (forall l w', getUserList env orderBy order page num w = (inr l, w') -> l <> []).
Proof.
  intros page' num' call.
  assert (Hempty : 1 <= page' -> 1 <= num' -> fault env call = None ->
    page_of (default ById orderBy) (default ASC order) page' num' (users w) = [] ->
    fst (getUserList env orderBy order page num w)
      = inl (createError 404 "No matching result.")).
  { intros Hp Hn Hf He. rewrite getUserList_valid by assumption. simpl.
    fold page' num' call. rewrite Hf. fold page' num'. now rewrite He. }
  split; [apply getUserList_invalid|].
  split; [exact Hempty|]. split.
  - intros Hp Hn Hf Hlen. apply Hempty; try assumption.
    unfold page_of. rewrite drop_ge; [now rewrite take_nil|].
    rewrite ordered_rows_length. lia.
  - intros l w' H. now apply getUserList_inr in H as (_ & _ & _ & H & _).
Qed.

Lemma getUserList_invalid_or_empty_witness :
  getUserList (sample_env true no_fault) None None (Some 0) (Some 20) seeded_world
    = (inl (createError 500 "Invalid parameters."), seeded_world) /\
  getUserList (sample_env true no_fault) None None (Some 1) (Some (-5)) seeded_world
    = (inl (createError 500 "Invalid parameters."), seeded_world) /\
  fst (getUserList (sample_env true no_fault) None None (Some 2) (Some 20) seeded_world)
    = inl (createError 404 "No matching result.") /\
  fst (getUserList (sample_env true no_fault) (Some ByUsername) (Some DESC) None None
         empty_world)
    = inl (createError 404 "No matching result.").
Proof.
  split; [|split; [|split]].
  - refine (proj1 (getUserList_invalid_or_empty (sample_env true no_fault)
                     None None (Some 0) (Some 20) seeded_world) _).
    left. simpl. lia.
  - refine (proj1 (getUserList_invalid_or_empty (sample_env true no_fault)
                     None None (Some 1) (Some (-5)) seeded_world) _).
    right. simpl. lia.
  - refine (proj1 (proj2 (proj2 (getUserList_invalid_or_empty
                     (sample_env true no_fault)
                     None None (Some 2) (Some 20) seeded_world))) _ _ _ _);
      first [reflexivity | vm_compute; discriminate].
  - refine (proj1 (proj2 (getUserList_invalid_or_empty
                     (sample_env true no_fault)
                     (Some ByUsername) (Some DESC) None None empty_world)) _ _ _ _);
      first [reflexivity | vm_compute; discriminate].
Defined.

(** C8.  In a table whose ids are distinct, a page that [getUserList]
    returns is the window of [num] rows of the ordered sequence starting at
    offset (page-1)*num, and a page that starts within the table is
    returned when the database answers; two different pages of the same
    size share no element; and with at least 21 identities pages 1 and 2 of size 20 both
    succeed, page 1 has 20 rows, and page 1 followed by page 2 is the
    beginning of the ordered sequence. *)
Theorem getUserList_pages_are_disjoint_slices env orderBy order w :
  NoDup (User.id <$> users w) ->
  let rows := ordered_rows (default ById orderBy) (default ASC order) (users w) in
  (forall p n l w',
     getUserList env orderBy order (Some p) (Some n) w = (inr l, w') ->
     1 <= p /\ 1 <= n /\
     l = take (Z.to_nat n) (drop (Z.to_nat ((p - 1) * n)) rows)) /\
  (forall p n,
     1 <= p -> 1 <= n ->
     fault env (UserGetMany (default ById orderBy) (default ASC order)
                  ((p - 1) * n) n) = None ->
     (p - 1) * n < Z.of_nat (length (users w)) ->
     exists l w', getUserList env orderBy order (Some p) (Some n) w = (inr l, w')) /\
  (forall p q n l1 l2 w1 w2,
     p < q ->
     getUserList env orderBy order (Some p) (Some n) w = (inr l1, w1) ->
     getUserList env orderBy order (Some q) (Some n) w1 = (inr l2, w2) ->
     forall u, u ∈ l1 -> u ∉ l2) /\
  ((21 <= length (users w))%nat ->
   (forall offset limit,
      fault env (UserGetMany (default ById orderBy) (default ASC order) offset limit)
        = None) ->
   exists l1 l2 w1 w2,
     getUserList env orderBy order (Some 1) (Some 20) w = (inr l1, w1) /\
     getUserList env orderBy order (Some 2) (Some 20) w1 = (inr l2, w2) /\
     length l1 = 20%nat /\
     (l1 ++ l2)%list = take 40 rows /\
     (forall u, u ∈ l1 -> u ∉ l2)).
Proof.
  intros Hnd rows.
  assert (Hrows : NoDup rows) by now apply ordered_rows_NoDup.
  assert (Hdisj : forall p q n l1 l2 w1 w2,
     p < q ->
     getUserList env orderBy order (Some p) (Some n) w = (inr l1, w1) ->
     getUserList env orderBy order (Some q) (Some n) w1 = (inr l2, w2) ->
     forall u, u ∈ l1 -> u ∉ l2).
  { intros p q n l1 l2 w1 w2 Hpq H1 H2.
    apply getUserList_inr in H1 as (Hp & Hn & -> & _ & Hu).
    apply getUserList_inr in H2 as (_ & _ & -> & _ & _).
    simpl in *. rewrite Hu. unfold page_of. fold rows.
    apply slices_disjoint; [assumption|]. nia. }
  split; [|split; [|split; [exact Hdisj|]]].
  - intros p n l w' H.
    apply getUserList_inr in H as (Hp & Hn & -> & _). simpl in *.
    repeat split; assumption.
  - intros p n Hp Hn Hf Hoff.
    rewrite (getUserList_valid env orderBy order (Some p) (Some n) w Hp Hn).
    cbn [default from_option Datatypes.id]. rewrite Hf.
    destruct (page_of _ _ p n (users w)) as [|u l] eqn:E; [|eauto].
    apply (f_equal length) in E. unfold page_of in E.
    rewrite length_take, length_drop, ordered_rows_length in E.
    cbn [length] in E. assert (0 <= (p - 1) * n) by nia. exfalso. lia.
  - intros Hlen Hf.
    assert (Hl : (21 <= length rows)%nat).
    { unfold rows. now rewrite ordered_rows_length. }
    pose proof (getUserList_valid env orderBy order (Some 1) (Some 20) w
                  ltac:(simpl; lia) ltac:(simpl; lia)) as E1.
    cbn [default from_option Datatypes.id] in E1. rewrite Hf in E1.
    unfold page_of in E1. fold rows in E1.
    change (Z.to_nat ((1 - 1) * 20)) with 0%nat in E1.
    change (Z.to_nat 20) with 20%nat in E1. rewrite drop_0 in E1.
    destruct (take 20 rows) as [|u1 l1] eqn:T1.
    { apply (f_equal length) in T1. rewrite length_take in T1.
      cbn [length] in T1. lia. }
    set (w1 := record_call _ w) in E1.
    pose proof (getUserList_valid env orderBy order (Some 2) (Some 20) w1
                  ltac:(simpl; lia) ltac:(simpl; lia)) as E2.
    cbn [default from_option Datatypes.id] in E2. rewrite Hf in E2.
    unfold page_of in E2. change (users w1) with (users w) in E2. fold rows in E2.
    change (Z.to_nat ((2 - 1) * 20)) with 20%nat in E2.
    change (Z.to_nat 20) with 20%nat in E2.
    destruct (take 20 (drop 20 rows)) as [|u2 l2] eqn:T2.
    { apply (f_equal length) in T2. rewrite length_take, length_drop in T2.
      cbn [length] in T2. lia. }
    eexists _, _, _, _. split; [exact E1|]. split; [exact E2|].
    split; [|split].
    + rewrite <- T1, length_take. lia.
    + rewrite <- T1, <- T2, take_take_drop. reflexivity.
    + eapply Hdisj; [|exact E1|exact E2]. lia.
Qed.

Lemma getUserList_pages_are_disjoint_slices_witness :
  let env := sample_env true no_fault in
  let w := numbered_world 21 in
  exists l1 l2 w1 w2,
    getUserList env (Some ByCreatedAt) (Some ASC) (Some 1) (Some 20) w = (inr l1, w1) /\
    getUserList env (Some ByCreatedAt) (Some ASC) (Some 2) (Some 20) w1 = (inr l2, w2) /\
    length l1 = 20%nat /\
    (l1 ++ l2)%list = take 40 (ordered_rows ByCreatedAt ASC (users w)) /\
    (forall u, u ∈ l1 -> u ∉ l2).
Proof.
  intros env w.
  refine (proj2 (proj2 (proj2 (getUserList_pages_are_disjoint_slices env
                                 (Some ByCreatedAt) (Some ASC) w _))) _ _).
  - apply (bool_decide_unpack _). vm_compute. exact I.
  - vm_compute. lia.
  - intros offset limit. reflexivity.
Defined.

(** ** Writing: the repositories *)

Lemma eqb_opt_true {A} `{EqDecision A} (a b : option A) :
  eqb_opt a b = true <-> a = b.
Proof. unfold eqb_opt. apply bool_decide_eq_true. Qed.

Lemma eqb_opt_refl {A} `{EqDecision A} (a : option A) : eqb_opt a a = true.
Proof. now apply eqb_opt_true. Qed.

Lemma find_user_Some i rows u :
  find_user i rows = Some u -> u ∈ rows /\ User.id u = Some i.
Proof.
  intros H. apply find_some in H as [Hin Hid].
  rewrite list_elem_of_In. now rewrite eqb_opt_true in Hid.
Qed.

Lemma find_user_filter_out i rows :
  find_user i (List.filter (fun r => negb (eqb_opt (User.id r) (Some i))) rows) = None.
Proof.
  unfold find_user. induction rows as [|r rows IH]; simpl; [reflexivity|].
  destruct (eqb_opt (User.id r) (Some i)) eqn:E; simpl; [exact IH|].
  now rewrite E.
Qed.

Lemma find_user_replace_row i u rows old :
  User.id u = Some i -> find_user i rows = Some old ->
  find_user i (replace_row u rows) = Some u.
Proof.
  intros Hu. unfold find_user, replace_row. rewrite Hu.
  induction rows as [|r rows IH]; simpl; [discriminate|].
  destruct (eqb_opt (User.id r) (Some i)) eqn:E; simpl.
  - intros _. now rewrite Hu, eqb_opt_refl.
  - rewrite E. exact IH.
Qed.

Lemma has_row_find_user i rows old :
  find_user i rows = Some old -> has_row (Some i) rows = true.
Proof.
  intros H. apply find_some in H as [Hin Hid].
  unfold has_row. simpl. apply existsb_exists. eauto.
Qed.

(** What a successful save of an identity leaves behind. *)
Lemma userRepository_save_inr env user w user' w' :
  userRepository_save env user w = (inr user', w') ->
  fault env (UserSave user) = None /\
  duplicate_entry user (users w) = false /\
  credentials w' = credentials w /\
  trace w' = (trace w ++ [UserSave user])%list /\
  console w' = console w /\ unhandled w' = unhandled w /\
  ((has_row (User.id user) (users w) = true /\ user' = user /\
    users w' = replace_row user (users w)) \/
   (has_row (User.id user) (users w) = false /\
    user' = User.set_createdAt (orUndefined (User.createdAt user) (Some (now env)))
              (User.set_id (Some (default (nextUserId w) (User.id user))) user) /\
    users w' = (users w ++ [user'])%list)).
Proof.
  unfold userRepository_save. intros H.
  destruct (fault env (UserSave user)); [discriminate|].
  simpl in H. destruct (duplicate_entry user (users w)); [discriminate|].
  destruct (has_row (User.id user) (users w)) eqn:Hr;
    injection H as <- <-; simpl; repeat split; auto.
Qed.

Lemma userRepository_save_inl env user w err w' :
  userRepository_save env user w = (inl err, w') ->
  w' = record_call (UserSave user) w.
Proof.
  unfold userRepository_save. intros H.
  destruct (fault env (UserSave user)); [now injection H as _ <-|].
  simpl in H. destruct (duplicate_entry user (users w)); [now injection H as _ <-|].
  destruct (has_row _ _); discriminate.
Qed.

(** A duplicate email or username is refused with errno 1062. *)
Lemma userRepository_save_duplicate env user w :
  fault env (UserSave user) = None ->
  duplicate_entry user (users w) = true ->
  userRepository_save env user w = (inl ER_DUP_ENTRY, record_call (UserSave user) w).
Proof.
  intros Hf Hd. unfold userRepository_save. rewrite Hf. simpl. now rewrite Hd.
Qed.

Lemma userRepository_save_elem env user w user' w' :
  userRepository_save env user w = (inr user', w') ->
  user' ∈ users w' /\ exists i, User.id user' = Some i.
Proof.
  intros H. apply userRepository_save_inr in H
    as (_ & _ & _ & _ & _ & _ & [(Hr & -> & Hu) | (Hr & -> & Hu)]).
  - unfold has_row in Hr. apply andb_true_iff in Hr as [Hd Hex].
    apply existsb_exists in Hex as (r & Hin & Hr). rewrite Hu.
    split.
    + unfold replace_row. apply list_elem_of_fmap. exists r.
      rewrite Hr. split; [reflexivity|]. now apply list_elem_of_In.
    + destruct (User.id user) as [i|]; [eauto|discriminate].
  - rewrite Hu. split; [|simpl; eauto].
    apply elem_of_app. right. apply list_elem_of_singleton. reflexivity.
Qed.

Lemma userRepository_save_fields env user w user' w' :
  userRepository_save env user w = (inr user', w') ->
  User.email user' = User.email user /\
  User.username user' = User.username user /\
  User.nickname user' = User.nickname user /\
  User.sex user' = User.sex user /\
  User.motto user' = User.motto user /\
  User.description user' = User.description user /\
  User.privilege user' = User.privilege user.
Proof.
  intros H. apply userRepository_save_inr in H
    as (_ & _ & _ & _ & _ & _ & [(_ & -> & _) | (_ & -> & _)]);
    repeat split; reflexivity.
Qed.

Lemma userCredentialRepository_save_inr env c w c' w' :
  userCredentialRepository_save env c w = (inr c', w') ->
  users w' = users w /\
  trace w' = (trace w ++ [CredentialSave c])%list /\
  console w' = console w /\ unhandled w' = unhandled w.
Proof.
  unfold userCredentialRepository_save. intros H.
  destruct (fault env (CredentialSave c)); [discriminate|].
  simpl in H.
  destruct (defined _ && existsb _ _); injection H as <- <-; simpl; auto.
Qed.

Lemma userCredentialRepository_save_inl env c w err w' :
  userCredentialRepository_save env c w = (inl err, w') ->
  fault env (CredentialSave c) = Some err /\
  w' = record_call (CredentialSave c) w.
Proof.
  unfold userCredentialRepository_save. intros H.
  destruct (fault env (CredentialSave c)); [injection H as <- <-; auto|].
  simpl in H. destruct (defined _ && existsb _ _); discriminate.
Qed.

Lemma userRepository_remove_run env user w i :
  User.id user = Some i ->
  userRepository_remove env user w =
    match fault env (UserRemove user) with
    | Some err => (inl err, record_call (UserRemove user) w)
    | None =>
        (inr tt,
         set_credentials
           (List.filter (fun c => negb (eqb_opt (row_user c) (Some i)))
              (credentials w))
           (set_users
              (List.filter (fun r => negb (eqb_opt (User.id r) (Some i))) (users w))
              (record_call (UserRemove user) w)))
    end.
Proof.
  intros Hi. unfold userRepository_remove. rewrite Hi. simpl.
  destruct (fault env _); reflexivity.
Qed.

(** ** Writing: postUser *)

Lemma postUser_entities_inr env data w user cred w1 :
  postUser_entities env data w = (inr (user, cred), w1) ->
  truthy_str (Payload.email data) = true /\
  truthy_str (Payload.username data) = true /\
  users w1 = users w /\ credentials w1 = credentials w /\
  trace w1 = (trace w ++ match if_truthy_num (Payload.id data) with
                         | Some i => [CredentialFindOne i]
                         | None => []
                         end)%list /\
  exists base, base_user env data w base /\ user = patch_profile data base.
Proof.
  unfold postUser_entities, base_user. intros H.
  destruct (truthy_str (Payload.email data)) eqn:He; [|discriminate].
  destruct (truthy_str (Payload.username data)) eqn:Hu; [|discriminate].
  simpl in H. run.
  destruct (if_truthy_num (Payload.id data)) as [i|] eqn:Hid.
  - unfold userCredentialRepository_findOne in H.
    destruct (fault env (CredentialFindOne i)); [discriminate|].
    simpl in H.
    destruct (List.find _ (credentials w)) as [c|]; [|discriminate].
    destruct (find_user i (users w)) as [old|] eqn:Hold; [|discriminate].
    simpl in H.
    destruct (if_truthy_str (Payload.password data)) as [pw|].
    + unfold updatePassword_unawaited in H.
      destruct (updatePassword env _ pw); injection H as <- <- <-; simpl;
        repeat split; eauto.
    + injection H as <- <- <-. simpl. repeat split; eauto.
  - rewrite andb_true_r in H. simpl in H. rewrite app_nil_r.
    destruct (need_confirmation (config env)).
    all: destruct (if_truthy_str (Payload.password data)) as [pw|].
    all: try (unfold updatePassword_unawaited in H;
              destruct (updatePassword env _ pw)).
    all: injection H as <- <- <-; simpl; repeat split; eauto.
Qed.

Lemma postUser_persist_run env user cred w :
  postUser_persist env user cred w =
    match userRepository_save env user w with
    | (inl err, w1) =>
        if eqb_opt (errno err) (Some 1062) then
          (inl (createError 400 "Username or email taken."), w1)
        else
          (inl (createError 500 "Database operation failed."), record_console err w1)
    | (inr user', w1) =>
        match userCredentialRepository_save env
                (UserCredential.set_user (Some user') cred) w1 with
        | (inr _, w2) => (inr user', w2)
        | (inl err, w2) =>
            match userRepository_remove env user' (record_console err w2) with
            | (inr _, w3) =>
                (inl (createError 500 "Database operation failed."), w3)
            | (inl e, w3) =>
                (inl (createError 500
                        "Database operation failed. Reverting failed as well."),
                 record_console e w3)
            end
        end
    end.
Proof.
  unfold postUser_persist. run.
  destruct (userRepository_save env user w) as [[err|user'] w1].
  - destruct (eqb_opt (errno err) (Some 1062)); reflexivity.
  - destruct (userCredentialRepository_save env _ w1) as [[err|c'] w2];
      [|reflexivity].
    destruct (userRepository_remove env user' (record_console err w2))
      as [[e|[]] w3]; reflexivity.
Qed.

Lemma postUser_run env data w :
  postUser env data w =
    match postUser_entities env data w with
    | (inr (user, cred), w1) => postUser_persist env user cred w1
    | (inl e, w1) => (inl e, w1)
    end.
Proof.
  unfold postUser. run.
  destruct (postUser_entities env data w) as [[e|[user cred]] w1]; reflexivity.
Qed.

(** A successful [postUser] went through both writes. *)
Lemma postUser_inr env data w u w' :
  postUser env data w = (inr u, w') ->
  exists user cred w1 w2 c',
    postUser_entities env data w = (inr (user, cred), w1) /\
    userRepository_save env user w1 = (inr u, w2) /\
    userCredentialRepository_save env (UserCredential.set_user (Some u) cred) w2
      = (inr c', w').
Proof.
  rewrite postUser_run.
  destruct (postUser_entities env data w) as [[e|[user cred]] w1] eqn:He;
    [discriminate|].
  rewrite postUser_persist_run.
  destruct (userRepository_save env user w1) as [[err|user'] w2] eqn:Hs.
  { destruct (eqb_opt _ _); discriminate. }
  destruct (userCredentialRepository_save env _ w2) as [[err|c'] w3] eqn:Hc.
  { destruct (userRepository_remove _ _ _) as [[e|[]] w4]; discriminate. }
  intros H. injection H as <- <-.
  exists user, cred, w1, w2, c'. auto.
Qed.

(** C2.  When the save of the identity is rejected as a duplicate (errno
    1062), [postUser] fails with the 400 "Username or email taken." error,
    which is not the 500 of a storage failure; the credential table is as
    before and no save of a credential appears among the repository calls
    made. *)
Theorem postUser_conflict_before_credential_write
    env data w user cred w1 err w2 :
  postUser_entities env data w = (inr (user, cred), w1) ->
  userRepository_save env user w1 = (inl err, w2) ->
  errno err = Some 1062 ->
  postUser env data w = (inl (createError 400 "Username or email taken."), w2) /\
  createError 400 "Username or email taken."
    <> createError 500 "Database operation failed." /\
  credentials w2 = credentials w /\
  users w2 = users w /\
  (forall c, CredentialSave c ∈ trace w2 -> CredentialSave c ∈ trace w).
Proof.
  intros He Hs Herr.
  rewrite postUser_run, He, postUser_persist_run, Hs, Herr, eqb_opt_refl.
  apply userRepository_save_inl in Hs as ->.
  apply postUser_entities_inr in He as (_ & _ & Hu & Hc & Ht & _).
  split; [reflexivity|]. split; [discriminate|]. simpl.
  repeat split; try assumption.
  intros c. rewrite Ht, !elem_of_app.
  intros [[H|H]|H]; [assumption| |].
  - destruct (if_truthy_num (Payload.id data)).
    + apply list_elem_of_singleton in H. discriminate.
    + now apply elem_of_nil in H.
  - apply list_elem_of_singleton in H. discriminate.
Qed.

(** The scenario of the spec: a signup with an email that another identity
    already uses. *)
Lemma postUser_conflict_before_credential_write_witness :
  let env := sample_env true no_fault in
  let data := signup "zk@codgi.cc" "zk2" (Some "CorrectPassword") in
  exists w2,
    postUser env data seeded_world
      = (inl (createError 400 "Username or email taken."), w2) /\
    createError 400 "Username or email taken."
      <> createError 500 "Database operation failed." /\
    credentials w2 = credentials seeded_world /\
    users w2 = users seeded_world /\
    (forall c, CredentialSave c ∈ trace w2 -> CredentialSave c ∈ trace seeded_world).
Proof.
  intros env data. eexists.
  eapply (postUser_conflict_before_credential_write env data seeded_world).
  - reflexivity.
  - reflexivity.
  - reflexivity.
Defined.

Lemma find_matches_id env i rows :
  List.find (matches env "id" (KNum i)) rows = find_user i rows.
Proof. reflexivity. Qed.

(** C1, as the code has it.  When the identity has been written and the
    save of the credential is then rejected, [postUser] issues the removal
    of the identity just written.  If the removal goes through, the 500
    "Database operation failed." error is thrown, no row of that id is left
    and a later [getUserInfo] for the id finds nothing: it fulfils with
    [undefined], it does not throw a NotFoundError.  If the removal is
    rejected as well, the distinct error "Database operation failed.
    Reverting failed as well." is thrown instead. *)
Theorem postUser_reverts_identity_write
    env data w user cred w1 user' w2 err w3 :
  postUser_entities env data w = (inr (user, cred), w1) ->
  userRepository_save env user w1 = (inr user', w2) ->
  userCredentialRepository_save env (UserCredential.set_user (Some user') cred) w2
    = (inl err, w3) ->
  exists i,
    User.id user' = Some i /\
    UserRemove user' ∈ trace (snd (postUser env data w)) /\
    match fault env (UserRemove user') with
    | None =>
        fst (postUser env data w)
          = inl (createError 500 "Database operation failed.") /\
        find_user i (users (snd (postUser env data w))) = None /\
        (forall env',
           i <> 0 -> fault env' (UserFindOne "id" (KNum i)) = None ->
           fst (getUserInfo env' (KNum i) (Some "id") (snd (postUser env data w)))
             = inr None)
    | Some _ =>
        fst (postUser env data w)
          = inl (createError 500
                   "Database operation failed. Reverting failed as well.")
    end /\
    createError 500 "Database operation failed. Reverting failed as well."
      <> createError 500 "Database operation failed.".
Proof.
  intros He Hs Hc.
  destruct (userRepository_save_elem _ _ _ _ _ Hs) as (_ & i & Hi).
  exists i. split; [exact Hi|].
  rewrite postUser_run, He, postUser_persist_run, Hs, Hc.
  rewrite (userRepository_remove_run _ _ _ i Hi).
  destruct (fault env (UserRemove user')) as [e|]; simpl.
  - split; [|split; [reflexivity|discriminate]].
    apply elem_of_app. right. apply list_elem_of_singleton. reflexivity.
  - split; [|split; [|discriminate]].
    { apply elem_of_app. right. apply list_elem_of_singleton. reflexivity. }
    split; [reflexivity|]. split; [apply find_user_filter_out|].
    intros env' Hi0 Hf.
    rewrite getUserInfo_valid.
    + simpl. rewrite find_matches_id. f_equal. apply find_user_filter_out.
    + apply negb_true_iff, Z.eqb_neq. exact Hi0.
    + reflexivity.
    + exact Hf.
Qed.

Lemma postUser_reverts_identity_write_witness :
  let env := sample_env true credential_save_and_remove_fail in
  let data := signup "al@codgi.cc" "al" (Some "secret1") in
  exists user',
    User.id user' = Some 2 /\
    UserRemove user' ∈ trace (snd (postUser env data seeded_world)) /\
    fst (postUser env data seeded_world)
      = inl (createError 500 "Database operation failed. Reverting failed as well.").
Proof.
  intros env data.
  destruct (postUser_reverts_identity_write env data seeded_world
              _ _ _ _ _ _ _ eq_refl eq_refl eq_refl) as (i & Hi & Ht & Hr & _).
  eexists. split; [|split; [exact Ht|exact Hr]]. reflexivity.
Defined.

(** C1, as stated, fails: after the credential write has failed and the
    identity has been removed again, [getUserInfo] for its id fulfils with
    [undefined]; no NotFoundError is thrown. *)
Lemma postUser_revert_then_lookup_is_not_an_error :
  let data := signup "al@codgi.cc" "al" (Some "secret1") in
  let r := postUser (sample_env true credential_save_fails) data seeded_world in
  fst r = inl (createError 500 "Database operation failed.") /\
  find_user 2 (users (snd r)) = None /\
  fst (getUserInfo (sample_env true no_fault) (KNum 2) (Some "id") (snd r))
    = inr None /\
  ~ (exists e, fst (getUserInfo (sample_env true no_fault) (KNum 2) (Some "id")
                      (snd r)) = inl e).
Proof.
  intros data r. split; [reflexivity|]. split; [reflexivity|].
  split; [reflexivity|]. intros [e H]. vm_compute in H. discriminate.
Qed.

(** C5.  An identity created by [postUser] (no truthy id in the payload)
    is stored with privilege 0 (pending) when the configuration asks for
    signup confirmation and with [UserPrivilege.isEnabled] otherwise. *)
Theorem postUser_initial_privilege env data w u w' :
  truthy_num (Payload.id data) = false ->
  postUser env data w = (inr u, w') ->
  User.privilege u
    = Some (if need_confirmation (config env) then 0 else UserPrivilege_isEnabled) /\
  u ∈ users w'.
Proof.
  intros Hid H.
  apply postUser_inr in H as (user & cred & w1 & w2 & c' & He & Hs & Hc).
  apply postUser_entities_inr in He as (_ & _ & _ & _ & _ & base & Hb & ->).
  unfold base_user, if_truthy_num in Hb. rewrite Hid in Hb. subst base.
  destruct (userRepository_save_fields _ _ _ _ _ Hs) as (_ & _ & _ & _ & _ & _ & Hp).
  destruct (userRepository_save_elem _ _ _ _ _ Hs) as (Hin & _).
  apply userCredentialRepository_save_inr in Hc as (Hu & _).
  rewrite Hp, Hu. split; [reflexivity|exact Hin].
Qed.

Lemma postUser_initial_privilege_witness :
  (exists u w',
     postUser (sample_env true no_fault) (signup "al@codgi.cc" "al" (Some "secret1"))
       seeded_world = (inr u, w') /\
     User.privilege u = Some 0 /\ u ∈ users w') /\
  (exists u w',
     postUser (sample_env false no_fault) (signup "al@codgi.cc" "al" (Some "secret1"))
       seeded_world = (inr u, w') /\
     User.privilege u = Some 1 /\ u ∈ users w').
Proof.
  split; eexists _, _.
  - split; [vm_compute; reflexivity|].
    refine (postUser_initial_privilege (sample_env true no_fault)
              (signup "al@codgi.cc" "al" (Some "secret1")) seeded_world _ _
              eq_refl _).
    vm_compute. reflexivity.
  - split; [vm_compute; reflexivity|].
    refine (postUser_initial_privilege (sample_env false no_fault)
              (signup "al@codgi.cc" "al" (Some "secret1")) seeded_world _ _
              eq_refl _).
    vm_compute. reflexivity.
Defined.

(** An update that succeeds: the stored identity of the id is replaced by
    the one loaded, with the privilege and the profile fields of the
    payload put over it. *)
Lemma postUser_update env data w u w' i :
  if_truthy_num (Payload.id data) = Some i ->
  postUser env data w = (inr u, w') ->
  exists old,
    find_user i (users w) = Some old /\
    find_user i (users w') = Some u /\
    u = patch_profile data
          (User.set_privilege
             (orUndefined (Payload.privilege data) (User.privilege old)) old).
Proof.
  intros Hid H.
  apply postUser_inr in H as (user & cred & w1 & w2 & c' & He & Hs & Hc).
  apply postUser_entities_inr in He as (_ & _ & Hu1 & _ & _ & base & Hb & Huser).
  unfold base_user in Hb. rewrite Hid in Hb. destruct Hb as (old & Hold & ->).
  exists old. split; [exact Hold|].
  destruct (find_user_Some _ _ _ Hold) as [_ Hoid].
  assert (Hid' : User.id user = Some i) by now subst user.
  rewrite <- Hu1 in Hold.
  pose proof (has_row_find_user _ _ _ Hold) as Hrow. rewrite <- Hid' in Hrow.
  apply userCredentialRepository_save_inr in Hc as (Hu3 & _).
  apply userRepository_save_inr in Hs
    as (_ & _ & _ & _ & _ & _ & [(_ & -> & Hu2) | (Hno & _)]); [|congruence].
  split; [|exact Huser].
  rewrite Hu3, Hu2. now apply (find_user_replace_row i user (users w1) old).
Qed.

Lemma patched_orUndefined {A} (d old : option A) : patched d old (orUndefined d old).
Proof. destruct d; reflexivity. Qed.

(** C9, as the code has it.  An update through [postUser] needs a
    non-empty email and username in the payload: without them the call is
    rejected with "Invalid parameters." and nothing is written, whatever
    else the payload carries.  When the update succeeds, email and username
    of the stored identity are the values of the payload, and each of
    nickname, sex, motto and description is the payload's value when the
    payload has the field and is unchanged when the payload leaves it
    undefined. *)
Theorem postUser_update_patches_profile env data w i :
  if_truthy_num (Payload.id data) = Some i ->
  (truthy_str (Payload.email data) = false \/
   truthy_str (Payload.username data) = false ->
   postUser env data w = (inl (createError 500 "Invalid parameters."), w)) /\
  (forall u w',
     postUser env data w = (inr u, w') ->
     exists old e n,
       find_user i (users w) = Some old /\
       find_user i (users w') = Some u /\
       Payload.email data = Some e /\ e <> "" /\ User.email u = Some e /\
       Payload.username data = Some n /\ n <> "" /\ User.username u = Some n /\
       patched (Payload.nickname data) (User.nickname old) (User.nickname u) /\
       patched (Payload.sex data) (User.sex old) (User.sex u) /\
       patched (Payload.motto data) (User.motto old) (User.motto u) /\
       patched (Payload.description data) (User.description old)
         (User.description u)).
Proof.
  intros Hid. split.
  - intros H. rewrite postUser_run. unfold postUser_entities.
    destruct H as [-> | ->]; [reflexivity|].
    now rewrite andb_false_r.
  - intros u w' H.
    destruct (postUser_update _ _ _ _ _ _ Hid H) as (old & Hold & Hnew & ->).
    apply postUser_inr in H as (user & cred & w1 & w2 & c' & He & _ & _).
    apply postUser_entities_inr in He as (Hte & Htn & _).
    destruct (Payload.email data) as [e|] eqn:Ee; [|discriminate].
    destruct (Payload.username data) as [n|] eqn:En; [|discriminate].
    simpl in Hte, Htn.
    apply negb_true_iff, String.eqb_neq in Hte.
    apply negb_true_iff, String.eqb_neq in Htn.
    exists old, e, n. simpl. rewrite Ee, En. simpl.
    repeat (split; [first [assumption | reflexivity]|]).
    repeat split; apply patched_orUndefined.
Qed.

Lemma postUser_update_patches_profile_witness :
  exists u w' old,
    postUser (sample_env true no_fault) edit_zk seeded_world = (inr u, w') /\
    find_user 1 (users seeded_world) = Some old /\
    find_user 1 (users w') = Some u /\
    User.email u = Some "zk@codgi.cc" /\
    User.username u = Some "zk" /\
    User.nickname u = Some "Zed" /\
    User.motto u = Some "bye" /\
    User.sex u = User.sex old /\
    User.description u = User.description old.
Proof.
  eexists _, _.
  assert (E : postUser (sample_env true no_fault) edit_zk seeded_world
              = (inr _, _)) by (vm_compute; reflexivity).
  destruct (proj2 (postUser_update_patches_profile (sample_env true no_fault)
                     edit_zk seeded_world 1 eq_refl) _ _ E)
    as (old & e & n & Hold & Hnew & He & _ & He' & Hn & _ & Hn' & Hk & Hs & Hm & Hd).
  injection He as <-. injection Hn as <-.
  exists old. split; [exact E|].
  split; [exact Hold|]. split; [exact Hnew|].
  split; [exact He'|]. split; [exact Hn'|].
  split; [exact Hk|]. split; [exact Hm|]. split; [exact Hs|exact Hd].
Defined.

(** C9, as stated, fails: an update of identity 1 that leaves the email
    undefined and carries a nickname is rejected, and the nickname that the
    payload has is not set on the stored identity. *)
Lemma postUser_update_without_email_sets_nothing :
  let data := payload_of (Some 1) None (Some "zk") (Some "Zed") None in
  Payload.email data = None /\
  Payload.nickname data = Some "Zed" /\
  postUser (sample_env true no_fault) data seeded_world
    = (inl (createError 500 "Invalid parameters."), seeded_world) /\
  (User.nickname <$> find_user 1 (users seeded_world)) = Some (Some "ZK") /\
  (User.nickname <$>
     find_user 1 (users (snd (postUser (sample_env true no_fault) data seeded_world))))
    <> Some (Some "Zed").
Proof.
  intros data. split; [reflexivity|]. split; [reflexivity|].
  split; [reflexivity|]. split; [reflexivity|]. vm_compute. discriminate.
Qed.

(** C6, as the code has it.  When [postUser] updates an existing identity
    and succeeds, the stored privilege is the privilege of the payload
    whenever the payload has one, and is unchanged when the payload leaves
    it undefined; the function consults no authorization decision. *)
Theorem postUser_update_sets_privilege env data w u w' i :
  if_truthy_num (Payload.id data) = Some i ->
  postUser env data w = (inr u, w') ->
  exists old,
    find_user i (users w) = Some old /\
    find_user i (users w') = Some u /\
    patched (Payload.privilege data) (User.privilege old) (User.privilege u).
Proof.
  intros Hid H.
  destruct (postUser_update _ _ _ _ _ _ Hid H) as (old & Hold & Hnew & ->).
  exists old. split; [exact Hold|]. split; [exact Hnew|].
  apply patched_orUndefined.
Qed.

Lemma postUser_update_sets_privilege_witness :
  exists u w' old,
    postUser (sample_env true no_fault) escalate_zk seeded_world = (inr u, w') /\
    find_user 1 (users seeded_world) = Some old /\
    find_user 1 (users w') = Some u /\
    User.privilege u = Some 255.
Proof.
  eexists _, _.
  assert (E : postUser (sample_env true no_fault) escalate_zk seeded_world
              = (inr _, _)) by (vm_compute; reflexivity).
  destruct (postUser_update_sets_privilege (sample_env true no_fault) escalate_zk
              seeded_world _ _ 1 eq_refl E)
    as (old & Hold & Hnew & Hp).
  exists old. split; [exact E|].
  split; [exact Hold|]. split; [exact Hnew|exact Hp].
Defined.

(** C6, as stated, fails: the update [escalate_zk] takes the stored
    privilege of identity 1 from 1 to 255 although the decision forbids
    every change. *)
Lemma postUser_update_privilege_unauthorized :
  (exists u w',
     postUser (sample_env true no_fault) escalate_zk seeded_world = (inr u, w') /\
     (User.privilege <$> find_user 1 (users seeded_world)) = Some (Some 1) /\
     (User.privilege <$> find_user 1 (users w')) = Some (Some 255)) /\
  ~ privilege_change_authorized (fun _ _ _ => false).
Proof.
  split.
  - eexists _, _. split; [vm_compute; reflexivity|].
    split; vm_compute; reflexivity.
  - intros H.
    assert (F : false = true); [|discriminate F].
    eapply (H (sample_env true no_fault) escalate_zk seeded_world _ _ 1 user_zk 1).
    + reflexivity.
    + reflexivity.
    + vm_compute. reflexivity.
    + vm_compute. discriminate.
Qed.

(** ** The password update that nobody awaits *)

Lemma duplicate_entry_fresh (u : User.t) (rows : list User.t) :
  (forall r, r ∈ rows ->
     User.email r <> User.email u /\ User.username r <> User.username u) ->
  duplicate_entry u rows = false.
Proof.
  intros H. unfold duplicate_entry.
  apply not_true_is_false. intros Hex.
  apply existsb_exists in Hex as (r & Hin & Hr).
  apply list_elem_of_In in Hin. destruct (H r Hin) as [He Hu].
  apply andb_true_iff in Hr as [_ Hr]. apply orb_true_iff in Hr as [Hr|Hr];
    apply andb_true_iff in Hr as [_ Hr]; apply eqb_opt_true in Hr; contradiction.
Qed.

(** C7 on the code.  A signup whose password [updatePassword] rejects
    still succeeds when the database accepts both writes: the credential
    is stored without a password, and the error built by the handler
    ("Update user password failed.") ends up as a rejection that nothing
    handles instead of failing [postUser]. *)
Theorem postUser_swallows_password_rejection env w email username password err :
  truthy_str (Some email) = true ->
  truthy_str (Some username) = true ->
  truthy_str (Some password) = true ->
  updatePassword env UserCredential.new password = inl err ->
  (forall c, fault env c = None) ->
  (forall r, r ∈ users w ->
     User.email r <> Some email /\ User.username r <> Some username) ->
  exists u w',
    postUser env (signup email username (Some password)) w = (inr u, w') /\
    unhandled w'
      = (unhandled w ++ [createError 500 "Update user password failed."])%list /\
    console w' = (console w ++ [err])%list /\
    credential_row (nextCredentialId w)
      (UserCredential.mk None (Some u) None) ∈ credentials w'.
Proof.
  intros He Hu Hp Hrej Hf Hfresh.
  rewrite postUser_run. unfold postUser_entities.
  cbn [signup Payload.email Payload.username Payload.id Payload.password
       Payload.nickname Payload.sex Payload.motto Payload.description
       Payload.privilege].
  rewrite He, Hu. cbn [andb negb]. run.
  cbn [if_truthy_num truthy_num]. unfold if_truthy_str. rewrite Hp.
  unfold updatePassword_unawaited. rewrite Hrej.
  rewrite postUser_persist_run.
  match goal with
  | |- context [userRepository_save env ?user ?world] =>
      set (cand := user); set (w1 := world)
  end.
  unfold userRepository_save. rewrite Hf.
  rewrite (duplicate_entry_fresh cand (users (record_call (UserSave cand) w1)))
    by exact Hfresh.
  cbn [has_row defined andb User.id cand User.set_description User.set_motto
       User.set_sex User.set_nickname User.set_username User.set_email
       User.set_privilege User.new].
  unfold userCredentialRepository_save. rewrite Hf.
  cbn [UserCredential.id UserCredential.set_user UserCredential.new defined andb
       default from_option].
  eexists _, _. split; [reflexivity|]. cbn.
  split; [reflexivity|]. split; [reflexivity|].
  apply elem_of_app. right. apply list_elem_of_singleton. reflexivity.
Qed.

(** The failing input: a signup with the three-letter password "abc",
    under a policy of 6 to 32 characters. *)
Lemma postUser_swallows_password_rejection_witness :
  let env := sample_env true no_fault in
  updatePassword env UserCredential.new "abc" = inl PolicyViolationError /\
  exists u w',
    postUser env (signup "al@codgi.cc" "al" (Some "abc")) seeded_world = (inr u, w') /\
    unhandled w' = [createError 500 "Update user password failed."] /\
    console w' = [PolicyViolationError] /\
    {| row_id := 2; row_user := User.id u; row_password := None |} ∈ credentials w'.
Proof.
  intros env. split; [reflexivity|].
  refine (postUser_swallows_password_rejection env seeded_world
            "al@codgi.cc" "al" "abc" PolicyViolationError
            eq_refl eq_refl eq_refl eq_refl (fun _ => eq_refl) _).
  intros r Hr. apply list_elem_of_singleton in Hr. subst r.
  split; discriminate.
Defined.

(** ** The primary key

    The list properties above ask for a table whose ids are distinct.
    That is an invariant of the worlds the code can reach: every row has an
    id below the next id to be generated, no id occurs twice, and
    [postUser] keeps it so whatever the database answers. *)

Lemma distinct_ids_same w w' :
  users w' = users w -> nextUserId w' = nextUserId w ->
  distinct_ids w -> distinct_ids w'.
Proof. unfold distinct_ids. intros -> ->. exact id. Qed.

Lemma replace_row_ids u rows : User.id <$> replace_row u rows = User.id <$> rows.
Proof.
  unfold replace_row. induction rows as [|r rows IH]; [reflexivity|].
  rewrite !fmap_cons. rewrite IH. f_equal.
  destruct (eqb_opt (User.id r) (User.id u)) eqn:E; [|reflexivity].
  symmetry. now apply eqb_opt_true.
Qed.

Lemma has_row_false_fresh i rows u :
  has_row (Some i) rows = false -> u ∈ rows -> User.id u <> Some i.
Proof.
  unfold has_row. simpl. intros H Hin Hid.
  apply not_true_iff_false in H. apply H, existsb_exists.
  exists u. split; [now apply list_elem_of_In|now apply eqb_opt_true].
Qed.

Lemma userRepository_save_distinct_ids env user w r w' :
  userRepository_save env user w = (r, w') -> distinct_ids w -> distinct_ids w'.
Proof.
  unfold userRepository_save. intros H [Hnd Hlt].
  destruct (fault env (UserSave user)).
  { injection H as _ <-. now split. }
  simpl in H. destruct (duplicate_entry user (users w)).
  { injection H as _ <-. now split. }
  destruct (has_row (User.id user) (users w)) eqn:Hr; injection H as _ <-.
  - split; simpl.
    + now rewrite replace_row_ids.
    + intros u Hu. unfold replace_row in Hu.
      apply list_elem_of_fmap in Hu as (r0 & -> & Hr0).
      destruct (Hlt r0 Hr0) as (i & Hi & Hi').
      destruct (eqb_opt (User.id r0) (User.id user)) eqn:E; [|eauto].
      apply eqb_opt_true in E. exists i. split; [congruence|exact Hi'].
  - set (i := default (nextUserId w) (User.id user)).
    assert (Hfresh : forall u, u ∈ users w -> User.id u <> Some i).
    { intros u Hu. destruct (User.id user) as [j|] eqn:Hj.
      - now apply (has_row_false_fresh j (users w)).
      - destruct (Hlt u Hu) as (k & Hk & Hk'). subst i. simpl.
        rewrite Hk. intros [= ->]. lia. }
    split; simpl.
    + rewrite fmap_app. apply NoDup_app. split; [exact Hnd|]. split.
      * intros x Hx Hx'. apply list_elem_of_singleton in Hx'. subst x.
        apply list_elem_of_fmap in Hx as (u & Hu & Hin).
        now apply (Hfresh u Hin).
      * apply NoDup_singleton.
    + intros u Hu. apply elem_of_app in Hu as [Hu|Hu].
      * destruct (Hlt u Hu) as (k & Hk & Hk'). exists k. split; [exact Hk|lia].
      * apply list_elem_of_singleton in Hu. subst u. exists i.
        split; [reflexivity|]. fold i. lia.
Qed.

Lemma userRepository_remove_distinct_ids env user w r w' :
  userRepository_remove env user w = (r, w') -> distinct_ids w -> distinct_ids w'.
Proof.
  unfold userRepository_remove. intros H [Hnd Hlt].
  destruct (fault env (UserRemove user)).
  { injection H as _ <-. now split. }
  destruct (defined (User.id user)); injection H as _ <-; [|now split].
  split; simpl.
  - revert Hnd. generalize (users w). intros rows.
    induction rows as [|r0 rows IH]; simpl; [trivial|].
    rewrite NoDup_cons. intros [Hr0 Hnd].
    destruct (negb _); [|now apply IH].
    rewrite fmap_cons. apply NoDup_cons. split; [|now apply IH].
    intros Hin. apply Hr0.
    apply list_elem_of_fmap in Hin as (u & Hu & Hin). apply list_elem_of_fmap.
    exists u. split; [exact Hu|].
    apply list_elem_of_In in Hin. apply filter_In in Hin as [Hin _].
    now apply list_elem_of_In.
  - intros u Hu. apply list_elem_of_In, filter_In in Hu as [Hu _].
    apply Hlt. now apply list_elem_of_In.
Qed.

Lemma userCredentialRepository_save_users env c w r w' :
  userCredentialRepository_save env c w = (r, w') ->
  users w' = users w /\ nextUserId w' = nextUserId w.
Proof.
  unfold userCredentialRepository_save. intros H.
  destruct (fault env (CredentialSave c)); [now injection H as _ <-|].
  simpl in H. destruct (defined _ && existsb _ _); now injection H as _ <-.
Qed.

Lemma postUser_entities_users env data w r w1 :
  postUser_entities env data w = (r, w1) ->
  users w1 = users w /\ nextUserId w1 = nextUserId w.
Proof.
  unfold postUser_entities. intros H.
  destruct (negb _); [now injection H as _ <-|].
  run.
  destruct (if_truthy_num (Payload.id data)) as [i|].
  - unfold userCredentialRepository_findOne in H.
    destruct (fault env (CredentialFindOne i)); [now injection H as _ <-|].
    simpl in H.
    destruct (List.find _ (credentials w)) as [c|]; [|now injection H as _ <-].
    destruct (find_user i (users w)) as [old|]; [|now injection H as _ <-].
    simpl in H.
    destruct (if_truthy_str (Payload.password data)) as [pw|];
      [unfold updatePassword_unawaited in H; destruct (updatePassword env _ pw)|];
      now injection H as _ <-.
  - simpl in H.
    destruct (if_truthy_str (Payload.password data)) as [pw|];
      [unfold updatePassword_unawaited in H; destruct (updatePassword env _ pw)|];
      now injection H as _ <-.
Qed.

Lemma postUser_distinct_ids env data w r w' :
  postUser env data w = (r, w') -> distinct_ids w -> distinct_ids w'.
Proof.
  rewrite postUser_run. intros H Hw.
  destruct (postUser_entities env data w) as [[e|[user cred]] w1] eqn:He;
    apply postUser_entities_users in He as [Hu Hn];
    pose proof (distinct_ids_same _ _ Hu Hn Hw) as Hw1.
  { now injection H as _ <-. }
  rewrite postUser_persist_run in H.
  destruct (userRepository_save env user w1) as [[err|user'] w2] eqn:Hs;
    apply userRepository_save_distinct_ids in Hs; [|assumption| |assumption].
  { destruct (eqb_opt _ _); now injection H as _ <-. }
  destruct (userCredentialRepository_save env _ w2) as [[err|c'] w3] eqn:Hc;
    apply userCredentialRepository_save_users in Hc as [Hu3 Hn3];
    pose proof (distinct_ids_same _ _ Hu3 Hn3 Hs) as Hw3.
  2: { now injection H as _ <-. }
  destruct (userRepository_remove env user' (record_console err w3))
    as [[e|[]] w4] eqn:Hr;
    apply userRepository_remove_distinct_ids in Hr; [|exact Hw3| |exact Hw3];
    now injection H as _ <-.
Qed.

Lemma empty_world_distinct_ids : distinct_ids empty_world.
Proof.
  split; [apply NoDup_nil_2|]. intros u Hu. now apply elem_of_nil in Hu.
Qed.

(** ** The payload check of postUser (lines 124-127) *)

Lemma postUser_requires_email_and_username env data w :
  truthy_str (Payload.email data) = false \/
  truthy_str (Payload.username data) = false ->
  postUser env data w = (inl (createError 500 "Invalid parameters."), w).
Proof.
  intros H. rewrite postUser_run. unfold postUser_entities.
  destruct H as [-> | ->]; [reflexivity|].
  now rewrite andb_false_r.
Qed.

(** ** When postUser succeeds

    With a database that answers every call, [postUser] fulfils as soon as
    the payload has an email and a username that no other identity holds
    and, for an update, the identity and its credential exist. *)

Lemma duplicate_entry_other (u : User.t) (rows : list User.t) :
  (forall r, r ∈ rows -> User.id r <> User.id u ->
     User.email r <> User.email u /\ User.username r <> User.username u) ->
  duplicate_entry u rows = false.
Proof.
  intros H. unfold duplicate_entry.
  apply not_true_is_false. intros Hex.
  apply existsb_exists in Hex as (r & Hin & Hr).
  apply list_elem_of_In in Hin.
  apply andb_true_iff in Hr as [Hid Hr].
  apply negb_true_iff in Hid.
  assert (Hne : User.id r <> User.id u).
  { intros E. apply eqb_opt_true in E. congruence. }
  destruct (H r Hin Hne) as [He Hu].
  apply orb_true_iff in Hr as [Hr|Hr];
    apply andb_true_iff in Hr as [_ Hr]; apply eqb_opt_true in Hr; contradiction.
Qed.

Lemma postUser_entities_succeeds env data w :
  truthy_str (Payload.email data) = true ->
  truthy_str (Payload.username data) = true ->
  (forall c, fault env c = None) ->
  (forall i, if_truthy_num (Payload.id data) = Some i ->
     is_Some (List.find (fun c => eqb_opt (row_user c) (Some i)) (credentials w)) /\
     is_Some (find_user i (users w))) ->
  exists user cred w1, postUser_entities env data w = (inr (user, cred), w1).
Proof.
  intros He Hu Hf Hex. unfold postUser_entities. rewrite He, Hu. simpl. run.
  destruct (if_truthy_num (Payload.id data)) as [i|].
  - unfold userCredentialRepository_findOne. rewrite Hf.
    destruct (Hex i eq_refl) as [[c Hc] [old Hold]].
    cbn [credentials users record_call]. rewrite Hc, Hold. simpl.
    destruct (if_truthy_str (Payload.password data)) as [pw|]; [|eauto].
    unfold updatePassword_unawaited. destruct (updatePassword env _ pw); eauto.
  - simpl.
    destruct (if_truthy_str (Payload.password data)) as [pw|]; [|eauto].
    unfold updatePassword_unawaited. destruct (updatePassword env _ pw); eauto.
Qed.

Lemma truthy_str_Some (v : option string) :
  truthy_str v = true -> exists s, v = Some s.
Proof. destruct v; [eauto|discriminate]. Qed.

Lemma postUser_succeeds env data w :
  truthy_str (Payload.email data) = true ->
  truthy_str (Payload.username data) = true ->
  (forall c, fault env c = None) ->
  (forall i, if_truthy_num (Payload.id data) = Some i ->
     is_Some (List.find (fun c => eqb_opt (row_user c) (Some i)) (credentials w)) /\
     is_Some (find_user i (users w))) ->
  (forall r, r ∈ users w -> User.id r <> if_truthy_num (Payload.id data) ->
     User.email r <> Payload.email data /\
     User.username r <> Payload.username data) ->
  exists u w', postUser env data w = (inr u, w').
Proof.
  intros He Hu Hf Hex Hfresh.
  destruct (postUser_entities_succeeds env data w He Hu Hf Hex)
    as (user & cred & w1 & E).
  rewrite postUser_run, E, postUser_persist_run.
  apply postUser_entities_inr in E as (_ & _ & Hu1 & _ & _ & base & Hb & ->).
  assert (Hid : User.id base = if_truthy_num (Payload.id data)).
  { unfold base_user in Hb. destruct (if_truthy_num (Payload.id data)) as [i|].
    - destruct Hb as (old & Hold & ->). now apply find_user_Some in Hold.
    - now subst base. }
  destruct (truthy_str_Some _ He) as [e Ee].
  destruct (truthy_str_Some _ Hu) as [n En].
  unfold userRepository_save. rewrite Hf.
  rewrite duplicate_entry_other.
  2: { simpl. rewrite Hu1, Hid. rewrite Ee, En in *. exact Hfresh. }
  destruct (has_row _ _);
    unfold userCredentialRepository_save; rewrite Hf;
    destruct (defined _ && existsb _ _); eauto.
Qed.

(** * Further properties of the model file *)

(** ** The readers when the database fails *)

(** X1.  When the database rejects the lookup of [getUserInfo], the caller
    gets the generic 500 "Database operation failed." and not the error of
    the driver, which goes to the console; the tables are untouched. *)
Theorem getUserInfo_database_failure env data by_ w err :
  truthy_key data = true ->
  valid_by (default "id" by_) = true ->
  fault env (UserFindOne (default "id" by_) data) = Some err ->
  exists w',
    getUserInfo env data by_ w
      = (inl (createError 500 "Database operation failed."), w') /\
    console w' = (console w ++ [err])%list /\
    users w' = users w /\ credentials w' = credentials w /\
    unhandled w' = unhandled w.
Proof.
  intros Hk Hb Hf. unfold getUserInfo. rewrite Hk, Hb. simpl. run.
  unfold userRepository_findOne. rewrite Hf.
  eexists. split; [reflexivity|]. repeat split.
Qed.

Lemma getUserInfo_database_failure_witness :
  exists w',
    getUserInfo (sample_env true database_down) (KStr "zk") (Some "username")
      seeded_world
      = (inl (createError 500 "Database operation failed."), w') /\
    console w' = [ER_LOCK_WAIT_TIMEOUT] /\
    users w' = users seeded_world /\ credentials w' = credentials seeded_world /\
    unhandled w' = [].
Proof.
  exact (getUserInfo_database_failure (sample_env true database_down)
           (KStr "zk") (Some "username") seeded_world ER_LOCK_WAIT_TIMEOUT
           eq_refl eq_refl eq_refl).
Defined.

(** X2.  When the database rejects the query of [getUserList] (the
    parameters being valid), the caller gets the generic 500 "Database
    operation failed.", the error of the driver goes to the console, and
    the tables are untouched. *)
Theorem getUserList_database_failure env orderBy order page num w err :
  let page' := default 1 page in
  let num' := default (default_num (config env)) num in
  1 <= page' -> 1 <= num' ->
  fault env (UserGetMany (default ById orderBy) (default ASC order)
               ((page' - 1) * num') num') = Some err ->
  exists w',
    getUserList env orderBy order page num w
      = (inl (createError 500 "Database operation failed."), w') /\
    console w' = (console w ++ [err])%list /\
    users w' = users w /\ credentials w' = credentials w.
Proof.
  intros page' num' Hp Hn Hf.
  rewrite getUserList_valid by assumption. cbn zeta.
  fold page' num'. rewrite Hf.
  eexists. split; [reflexivity|]. repeat split.
Qed.

Lemma getUserList_database_failure_witness :
  exists w',
    getUserList (sample_env true database_down) None None None None seeded_world
      = (inl (createError 500 "Database operation failed."), w') /\
    console w' = [ER_LOCK_WAIT_TIMEOUT] /\
    users w' = users seeded_world /\ credentials w' = credentials seeded_world.
Proof.
  refine (getUserList_database_failure (sample_env true database_down)
            None None None None seeded_world ER_LOCK_WAIT_TIMEOUT _ _ eq_refl);
    vm_compute; discriminate.
Defined.

(** ** The pages of getUserList *)

Lemma leb_option_total {A} (leb : A -> A -> bool) :
  (forall x y, leb x y = true \/ leb y x = true) ->
  forall a b, leb_option leb a b = true \/ leb_option leb b a = true.
Proof.
  intros H [x|] [y|]; simpl; auto.
Qed.

Lemma Z_leb_total (x y : Z) : (x <=? y) = true \/ (y <=? x) = true.
Proof. rewrite !Z.leb_le. lia. Qed.

Lemma row_leb_total orderBy order u v :
  row_leb orderBy order u v = true \/ row_leb orderBy order v u = true.
Proof.
  destruct order, orderBy; simpl;
    first [apply (leb_option_total Z.leb Z_leb_total)
          |apply (leb_option_total String.leb String.leb_total)].
Qed.

Section InsertionSort.
Context {A : Type} (leb : A -> A -> bool).
Hypothesis leb_total : forall x y, leb x y = true \/ leb y x = true.

Let le (x y : A) : Prop := leb x y = true.

Lemma insert_by_HdRel (a x : A) (l : list A) :
  le a x -> HdRel le a l -> HdRel le a (insert_by leb x l).
Proof.
  intros Hax Hl. destruct l as [|y l]; simpl; [now constructor|].
  destruct (leb x y); constructor; [assumption|].
  now apply HdRel_inv in Hl.
Qed.

Lemma insert_by_Sorted (x : A) (l : list A) :
  Sorted le l -> Sorted le (insert_by leb x l).
Proof.
  induction l as [|y l IH]; simpl; intros Hs.
  - repeat constructor.
  - apply Sorted_inv in Hs as [Hs Hy].
    destruct (leb x y) eqn:E.
    + constructor; [now constructor|]. now constructor.
    + constructor; [now apply IH|].
      apply insert_by_HdRel; [|assumption].
      destruct (leb_total x y) as [H|H]; [congruence|exact H].
Qed.

Lemma sort_by_Sorted (l : list A) : Sorted le (sort_by leb l).
Proof.
  induction l as [|x l IH]; simpl; [constructor|]. now apply insert_by_Sorted.
Qed.

Lemma Sorted_drop (n : nat) (l : list A) : Sorted le l -> Sorted le (drop n l).
Proof.
  revert l. induction n as [|n IH]; intros [|x l] Hs; simpl; try assumption.
  apply IH. now apply Sorted_inv in Hs.
Qed.

Lemma Sorted_take (n : nat) (l : list A) : Sorted le l -> Sorted le (take n l).
Proof.
  revert l. induction n as [|n IH]; intros [|x l] Hs; simpl; try constructor.
  - apply IH. now apply Sorted_inv in Hs.
  - apply Sorted_inv in Hs as [_ Hx].
    destruct l as [|y l]; destruct n; simpl; constructor.
    now apply HdRel_inv in Hx.
Qed.

End InsertionSort.

(** The rows behind a page: the window of the sorted table before the
    projection. *)
Lemma page_of_rows orderBy order page num rows :
  page_of orderBy order page num rows =
    select_public <$> take (Z.to_nat num)
                        (drop (Z.to_nat ((page - 1) * num))
                           (sort_by (row_leb orderBy order) rows)).
Proof.
  unfold page_of, ordered_rows. now rewrite fmap_take, fmap_drop.
Qed.

Lemma window_sorted_subset orderBy order (n off : nat) (rows : list User.t) :
  let window := take n (drop off (sort_by (row_leb orderBy order) rows)) in
  Sorted (row_le orderBy order) window /\
  (forall u, u ∈ window -> u ∈ rows) /\
  (length window <= n)%nat.
Proof.
  intros window. split; [|split].
  - apply Sorted_take, Sorted_drop, sort_by_Sorted. apply row_leb_total.
  - intros u Hu. apply subseteq_take, subseteq_drop in Hu.
    now rewrite sort_by_perm in Hu.
  - unfold window. rewrite length_take. lia.
Qed.

(** X3.  A page returned by [getUserList] is the projection of rows of the
    table that come in the order asked for; it has at most [num] entries,
    and every entry has [motto], [description] and [createdAt] undefined
    whatever the stored identity holds. *)
Theorem getUserList_page_is_sorted_and_public env orderBy order page num w l w' :
  getUserList env orderBy order page num w = (inr l, w') ->
  exists rows,
    l = select_public <$> rows /\
    Sorted (row_le (default ById orderBy) (default ASC order)) rows /\
    (forall u, u ∈ rows -> u ∈ users w) /\
    Z.of_nat (length l) <= default (default_num (config env)) num /\
    (forall u, u ∈ l ->
       User.motto u = None /\ User.description u = None /\ User.createdAt u = None).
Proof.
  intros H. apply getUserList_inr in H as (Hp & Hn & -> & _ & _).
  rewrite page_of_rows.
  destruct (window_sorted_subset (default ById orderBy) (default ASC order)
              (Z.to_nat (default (default_num (config env)) num))
              (Z.to_nat ((default 1 page - 1) * default (default_num (config env)) num))
              (users w)) as (Hs & Hsub & Hlen).
  eexists. split; [reflexivity|]. split; [exact Hs|]. split; [exact Hsub|].
  split.
  - rewrite length_fmap. lia.
  - intros u Hu. apply list_elem_of_fmap in Hu as (r & -> & _). now repeat split.
Qed.

Lemma getUserList_page_is_sorted_and_public_witness :
  exists l w' rows,
    getUserList (sample_env true no_fault) (Some ByUsername) (Some DESC)
      (Some 2) (Some 5) (numbered_world 12) = (inr l, w') /\
    l = select_public <$> rows /\
    Sorted (row_le ByUsername DESC) rows /\
    (forall u, u ∈ rows -> u ∈ users (numbered_world 12)) /\
    Z.of_nat (length l) <= 5 /\
    (forall u, u ∈ l ->
       User.motto u = None /\ User.description u = None /\ User.createdAt u = None).
Proof.
  eexists _, _.
  assert (E : getUserList (sample_env true no_fault) (Some ByUsername) (Some DESC)
                (Some 2) (Some 5) (numbered_world 12) = (inr _, _))
    by (vm_compute; reflexivity).
  destruct (getUserList_page_is_sorted_and_public _ _ _ _ _ _ _ _ E)
    as (rows & H1 & H2 & H3 & H4 & H5).
  exists rows. split; [exact E|]. split; [exact H1|]. split; [exact H2|].
  split; [exact H3|]. split; [exact H4|exact H5].
Defined.

(** Cutting a list into pages of [n] loses nothing. *)
Lemma pages_cover {A} (L : list A) (n : nat) (x : A) :
  (0 < n)%nat -> x ∈ L -> exists p, x ∈ take n (drop (p * n) L).
Proof.
  intros Hn Hx. apply list_elem_of_lookup in Hx as [k Hk].
  exists (k / n)%nat. apply list_elem_of_lookup. exists (k mod n)%nat.
  rewrite lookup_take_lt by (apply Nat.mod_upper_bound; lia).
  rewrite lookup_drop.
  replace (k / n * n + k mod n)%nat with k; [exact Hk|].
  rewrite (Nat.div_mod_eq k n) at 1. lia.
Qed.

Lemma page_offset (p : nat) (n : Z) :
  1 <= n -> Z.to_nat ((Z.of_nat p + 1 - 1) * n) = (p * Z.to_nat n)%nat.
Proof. intros Hn. nia. Qed.

(** X4.  Paging through [getUserList] reaches every identity: with a valid
    page size and a database that answers, each identity of the table is
    on some page, in its public projection. *)
Theorem getUserList_reaches_every_identity env orderBy order num w u :
  let num' := default (default_num (config env)) num in
  1 <= num' ->
  (forall offset,
     fault env (UserGetMany (default ById orderBy) (default ASC order) offset num')
       = None) ->
  u ∈ users w ->
  exists page l w',
    1 <= page /\
    getUserList env orderBy order (Some page) num w = (inr l, w') /\
    select_public u ∈ l.
Proof.
  intros num' Hn Hf Hu.
  assert (Hin : select_public u
                ∈ ordered_rows (default ById orderBy) (default ASC order) (users w)).
  { unfold ordered_rows. apply list_elem_of_fmap_2. now rewrite sort_by_perm. }
  apply (pages_cover _ (Z.to_nat num')) in Hin as [p Hp]; [|lia].
  exists (Z.of_nat p + 1).
  rewrite (getUserList_valid env orderBy order (Some (Z.of_nat p + 1)) num w)
    by (simpl; fold num'; lia).
  cbn [default from_option Datatypes.id]. fold num'. rewrite Hf.
  unfold page_of. rewrite page_offset by exact Hn.
  destruct (take _ _) as [|r l] eqn:E.
  { now apply elem_of_nil in Hp. }
  eexists _, _. split; [lia|]. split; [reflexivity|exact Hp].
Qed.

Lemma getUserList_reaches_every_identity_witness :
  exists page l w',
    1 <= page /\
    getUserList (sample_env true no_fault) (Some ByCreatedAt) None (Some page)
      (Some 5) (numbered_world 12) = (inr l, w') /\
    select_public (numbered_user 3) ∈ l.
Proof.
  refine (getUserList_reaches_every_identity (sample_env true no_fault)
            (Some ByCreatedAt) None (Some 5) (numbered_world 12)
            (numbered_user 3) _ (fun _ => eq_refl) _).
  - vm_compute. discriminate.
  - apply (bool_decide_unpack _). vm_compute. exact I.
Defined.

(** ** searchUser *)

Section SearchUser.
Variable env : Env.
Variable db : SearchDb.
Variable keyword : string.
Variables (orderBy : option OrderBy) (order : option Order).
Variables (page num : option Z).

Let orderBy' := default ById orderBy.
Let order' := default ASC order.
Let page' := default 1 page.
Let num' := default (default_num (config env)) num.

Lemma searchUser_invalid w :
  page' < 1 \/ num' < 1 \/ keyword = "" ->
  searchUser env db keyword orderBy order page num w
    = (inl (createError 500 "Invalid parameters."), w).
Proof.
  intros H. unfold searchUser. fold page' num'.
  assert ((page' <? 1) || (num' <? 1) || negb (truthy_str (Some keyword)) = true)
    as ->; [|reflexivity].
  rewrite !orb_true_iff, !Z.ltb_lt. simpl. rewrite negb_involutive, String.eqb_eq.
  tauto.
Qed.

Lemma searchUser_valid w :
  1 <= page' -> 1 <= num' -> keyword <> "" ->
  searchUser env db keyword orderBy order page num w =
    match search_fault db keyword orderBy' order' ((page' - 1) * num') num' with
    | Some err =>
        (inl (createError 500 "Database operation failed."), record_console err w)
    | None =>
        match take (Z.to_nat num')
                (drop (Z.to_nat ((page' - 1) * num'))
                   (search_rows db keyword orderBy' order' (users w))) with
        | [] => (inl (createError 404 "No matching result."), w)
        | l => (inr l, w)
        end
    end.
Proof.
  intros Hp Hn Hk. unfold searchUser. fold orderBy' order' page' num'.
  assert ((page' <? 1) || (num' <? 1) || negb (truthy_str (Some keyword)) = false)
    as ->.
  { rewrite !orb_false_iff, !Z.ltb_ge. simpl.
    rewrite negb_involutive, String.eqb_neq. repeat split; [lia|lia|exact Hk]. }
  run. unfold userRepository_search.
  destruct (search_fault db _ _ _ _ _); [reflexivity|].
  fold (search_rows db keyword orderBy' order' (users w)).
  destruct (take _ _); reflexivity.
Qed.

Lemma searchUser_inr w l w' :
  searchUser env db keyword orderBy order page num w = (inr l, w') ->
  1 <= page' /\ 1 <= num' /\ keyword <> "" /\
  l = take (Z.to_nat num')
        (drop (Z.to_nat ((page' - 1) * num'))
           (search_rows db keyword orderBy' order' (users w))) /\
  l <> [] /\ w' = w.
Proof.
  intros H.
  destruct (Z_lt_le_dec page' 1) as [Hp|Hp].
  { rewrite searchUser_invalid in H by tauto. discriminate. }
  destruct (Z_lt_le_dec num' 1) as [Hn|Hn].
  { rewrite searchUser_invalid in H by tauto. discriminate. }
  destruct (string_dec keyword "") as [Hk|Hk].
  { rewrite searchUser_invalid in H by tauto. discriminate. }
  rewrite (searchUser_valid _ Hp Hn Hk) in H.
  destruct (search_fault db _ _ _ _ _); [discriminate|].
  destruct (take _ _) eqn:E; [discriminate|].
  injection H as <- <-. repeat split; try assumption. discriminate.
Qed.

End SearchUser.

(** X5.  [searchUser] throws the invalid-parameter error for a page or a
    page size below 1 and for an empty keyword, before the database is
    asked anything: the outcome does not depend on the database and the
    world is left as it was. *)
Theorem searchUser_rejects_invalid_parameters env db keyword orderBy order page num w :
  default 1 page < 1 \/ default (default_num (config env)) num < 1 \/ keyword = "" ->
  searchUser env db keyword orderBy order page num w
    = (inl (createError 500 "Invalid parameters."), w) /\
  forall db', searchUser env db' keyword orderBy order page num w
              = searchUser env db keyword orderBy order page num w.
Proof.
  intros H. split; [now apply searchUser_invalid|].
  intros db'. now rewrite !searchUser_invalid.
Qed.

Lemma searchUser_rejects_invalid_parameters_witness :
  searchUser (sample_env true no_fault) sample_db "" None None None None seeded_world
    = (inl (createError 500 "Invalid parameters."), seeded_world) /\
  searchUser (sample_env true no_fault) sample_db "zk" None None (Some 0) None
    seeded_world
    = (inl (createError 500 "Invalid parameters."), seeded_world).
Proof.
  split.
  - refine (proj1 (searchUser_rejects_invalid_parameters (sample_env true no_fault)
                     sample_db "" None None None None seeded_world _)).
    right. right. reflexivity.
  - refine (proj1 (searchUser_rejects_invalid_parameters (sample_env true no_fault)
                     sample_db "zk" None None (Some 0) None seeded_world _)).
    left. simpl. lia.
Defined.

Lemma search_rows_window db keyword orderBy order (n off : nat) rows :
  take n (drop off (search_rows db keyword orderBy order rows)) =
    select_public <$>
      take n (drop off (sort_by (row_leb orderBy order)
                          (List.filter (search_where db keyword) rows))).
Proof.
  unfold search_rows, ordered_rows. now rewrite fmap_take, fmap_drop.
Qed.

(** X6.  Every entry that [searchUser] returns is the public projection of
    an identity of the table whose username, email or nickname is LIKE
    [%keyword%]; the entries come in the order asked for, there are at most
    [num] of them and at least one, and the world is left as it was. *)
Theorem searchUser_hits_match env db keyword orderBy order page num w l w' :
  searchUser env db keyword orderBy order page num w = (inr l, w') ->
  exists rows,
    l = select_public <$> rows /\
    (forall u, u ∈ rows ->
       u ∈ users w /\
       (like_column db ("%" ++ keyword ++ "%") (User.username u) = true \/
        like_column db ("%" ++ keyword ++ "%") (User.email u) = true \/
        like_column db ("%" ++ keyword ++ "%") (User.nickname u) = true)) /\
    Sorted (row_le (default ById orderBy) (default ASC order)) rows /\
    (0 < Z.of_nat (length l) <= default (default_num (config env)) num) /\
    w' = w.
Proof.
  intros H. apply searchUser_inr in H as (Hp & Hn & Hk & -> & Hne & ->).
  rewrite search_rows_window in *.
  destruct (window_sorted_subset (default ById orderBy) (default ASC order)
              (Z.to_nat (default (default_num (config env)) num))
              (Z.to_nat ((default 1 page - 1) * default (default_num (config env)) num))
              (List.filter (search_where db keyword) (users w)))
    as (Hs & Hsub & Hlen).
  eexists. split; [reflexivity|]. split; [|split; [exact Hs|]].
  - intros u Hu. apply Hsub in Hu.
    apply list_elem_of_In, filter_In in Hu as [Hin Hm].
    split; [now apply list_elem_of_In|].
    unfold search_where in Hm. rewrite !orb_true_iff in Hm. tauto.
  - split; [|reflexivity]. rewrite length_fmap in *.
    split; [|lia].
    destruct (take _ _); [now destruct Hne|simpl; lia].
Qed.

Lemma searchUser_hits_match_witness :
  exists l w' rows,
    searchUser (sample_env true no_fault) sample_db "u1" (Some ByUsername) None
      (Some 1) (Some 3) (numbered_world 12) = (inr l, w') /\
    l = select_public <$> rows /\
    (forall u, u ∈ rows ->
       u ∈ users (numbered_world 12) /\
       (like_column sample_db "%u1%" (User.username u) = true \/
        like_column sample_db "%u1%" (User.email u) = true \/
        like_column sample_db "%u1%" (User.nickname u) = true)) /\
    Sorted (row_le ByUsername ASC) rows /\
    (0 < Z.of_nat (length l) <= 3) /\
    w' = numbered_world 12.
Proof.
  eexists _, _.
  assert (E : searchUser (sample_env true no_fault) sample_db "u1" (Some ByUsername)
                None (Some 1) (Some 3) (numbered_world 12) = (inr _, _))
    by (vm_compute; reflexivity).
  destruct (searchUser_hits_match _ _ _ _ _ _ _ _ _ _ E)
    as (rows & H1 & H2 & H3 & H4 & H5).
  exists rows. split; [exact E|]. split; [exact H1|]. split; [exact H2|].
  split; [exact H3|]. split; [exact H4|exact H5].
Defined.

(** X7.  With valid parameters [searchUser] never fulfils with an empty
    list: when no identity matches the keyword it throws the 404 "No
    matching result." on every page; and when the database rejects the
    query it throws the generic 500 and logs the error of the driver. *)
Theorem searchUser_no_match_or_failure env db keyword orderBy order page num w :
  let page' := default 1 page in
  let num' := default (default_num (config env)) num in
  let res := search_fault db keyword (default ById orderBy) (default ASC order)
               ((page' - 1) * num') num' in
  1 <= page' -> 1 <= num' -> keyword <> "" ->
  (res = None ->
   (forall u, u ∈ users w -> search_where db keyword u = false) ->
   searchUser env db keyword orderBy order page num w
     = (inl (createError 404 "No matching result."), w)) /\
  (forall err, res = Some err ->
   searchUser env db keyword orderBy order page num w
     = (inl (createError 500 "Database operation failed."), record_console err w)).
Proof.
  intros page' num' res Hp Hn Hk. split.
  - intros Hr Hnone. rewrite searchUser_valid by assumption.
    fold page' num' res. rewrite Hr.
    assert (List.filter (search_where db keyword) (users w) = []) as E.
    { destruct (List.filter _ _) as [|r l] eqn:E; [reflexivity|].
      assert (Hin : In r (List.filter (search_where db keyword) (users w)))
        by (rewrite E; now left).
      apply filter_In in Hin as [Hin Hm].
      apply list_elem_of_In in Hin. rewrite (Hnone r Hin) in Hm. discriminate. }
    unfold search_rows, ordered_rows. rewrite E. cbn [sort_by foldr].
    now rewrite fmap_nil, drop_nil, take_nil.
  - intros err Hr. rewrite searchUser_valid by assumption.
    fold page' num' res. now rewrite Hr.
Qed.

Lemma searchUser_no_match_or_failure_witness :
  searchUser (sample_env true no_fault) sample_db "nobody" None None None None
    seeded_world
    = (inl (createError 404 "No matching result."), seeded_world) /\
  searchUser (sample_env true no_fault) (failing_db ER_LOCK_WAIT_TIMEOUT) "zk"
    None None None None seeded_world
    = (inl (createError 500 "Database operation failed."),
       record_console ER_LOCK_WAIT_TIMEOUT seeded_world).
Proof.
  split.
  - refine (proj1 (searchUser_no_match_or_failure (sample_env true no_fault)
                     sample_db "nobody" None None None None seeded_world
                     _ _ _) eq_refl _).
    + vm_compute. discriminate.
    + vm_compute. discriminate.
    + discriminate.
    + intros u Hu. apply list_elem_of_singleton in Hu. subst u.
      vm_compute. reflexivity.
  - refine (proj2 (searchUser_no_match_or_failure (sample_env true no_fault)
                     (failing_db ER_LOCK_WAIT_TIMEOUT) "zk" None None None None
                     seeded_world _ _ _) ER_LOCK_WAIT_TIMEOUT eq_refl).
    + vm_compute. discriminate.
    + vm_compute. discriminate.
    + discriminate.
Defined.

(** X8.  Paging through [searchUser] reaches every match: with a valid
    page size, a non-empty keyword and a database that answers, each
    identity whose username, email or nickname is LIKE [%keyword%] is on
    some page of the search. *)
Theorem searchUser_reaches_every_match env db keyword orderBy order num w u :
  let num' := default (default_num (config env)) num in
  1 <= num' -> keyword <> "" ->
  (forall offset,
     search_fault db keyword (default ById orderBy) (default ASC order) offset num'
       = None) ->
  u ∈ users w ->
  search_where db keyword u = true ->
  exists page l,
    1 <= page /\
    searchUser env db keyword orderBy order (Some page) num w = (inr l, w) /\
    select_public u ∈ l.
Proof.
  intros num' Hn Hk Hf Hu Hm.
  assert (Hin : select_public u
                ∈ search_rows db keyword (default ById orderBy) (default ASC order)
                    (users w)).
  { unfold search_rows, ordered_rows. apply list_elem_of_fmap_2.
    rewrite sort_by_perm. apply list_elem_of_In, filter_In.
    split; [now apply list_elem_of_In|exact Hm]. }
  apply (pages_cover _ (Z.to_nat num')) in Hin as [p Hp]; [|lia].
  exists (Z.of_nat p + 1).
  rewrite (searchUser_valid env db keyword orderBy order (Some (Z.of_nat p + 1)) num w)
    by (simpl; fold num'; first [lia | exact Hk]).
  cbn [default from_option Datatypes.id]. fold num'. rewrite Hf.
  rewrite page_offset by exact Hn.
  destruct (take _ _) as [|r l] eqn:E.
  { now apply elem_of_nil in Hp. }
  eexists. split; [lia|]. split; [reflexivity|exact Hp].
Qed.

Lemma searchUser_reaches_every_match_witness :
  exists page l,
    1 <= page /\
    searchUser (sample_env true no_fault) sample_db "u1" None None (Some page)
      (Some 2) (numbered_world 12) = (inr l, numbered_world 12) /\
    select_public (numbered_user 12) ∈ l.
Proof.
  refine (searchUser_reaches_every_match (sample_env true no_fault) sample_db "u1"
            None None (Some 2) (numbered_world 12) (numbered_user 12)
            _ _ (fun _ => eq_refl) _ _).
  - vm_compute. discriminate.
  - discriminate.
  - apply (bool_decide_unpack _). vm_compute. exact I.
  - vm_compute. reflexivity.
Defined.

(** ** validateUserInfo *)

Lemma truthy_str_true (v : option string) :
  truthy_str v = true <-> exists s, v = Some s /\ s <> "".
Proof.
  destruct v as [s|]; simpl.
  - rewrite negb_true_iff, String.eqb_neq. split; [eauto|].
    now intros (s' & [= <-] & H).
  - split; [discriminate|]. now intros (s & H & _).
Qed.

Lemma truthy_num_true (v : option Z) :
  truthy_num v = true <-> exists m, v = Some m /\ m <> 0.
Proof.
  destruct v as [m|]; simpl.
  - rewrite negb_true_iff, Z.eqb_neq. split; [eauto|].
    now intros (m' & [= <-] & H).
  - split; [discriminate|]. now intros (m & H & _).
Qed.

Lemma shorter_than_false v bound : shorter_than v bound = false <-> at_least v bound.
Proof.
  unfold shorter_than, at_least. split.
  - intros H s m -> Hs -> Hm. simpl in H.
    apply String.eqb_neq in Hs. apply Z.eqb_neq in Hm. rewrite Hs, Hm in H.
    simpl in H. now apply Z.ltb_ge in H.
  - intros H. apply not_true_is_false. rewrite !andb_true_iff.
    intros [[Hv Hb] Hlt].
    apply truthy_str_true in Hv as (s & -> & Hs).
    apply truthy_num_true in Hb as (m & -> & Hm).
    simpl in Hlt. apply Z.ltb_lt in Hlt.
    specialize (H s m eq_refl Hs eq_refl Hm). lia.
Qed.

Lemma longer_than_false v bound : longer_than v bound = false <-> at_most v bound.
Proof.
  unfold longer_than, at_most. split.
  - intros H s m -> Hs -> Hm. simpl in H.
    apply String.eqb_neq in Hs. apply Z.eqb_neq in Hm. rewrite Hs, Hm in H.
    simpl in H. now apply Z.ltb_ge in H.
  - intros H. apply not_true_is_false. rewrite !andb_true_iff.
    intros [[Hv Hb] Hlt].
    apply truthy_str_true in Hv as (s & -> & Hs).
    apply truthy_num_true in Hb as (m & -> & Hm).
    simpl in Hlt. apply Z.ltb_lt in Hlt.
    specialize (H s m eq_refl Hs eq_refl Hm). lia.
Qed.

Lemma email_check_false (validate : string -> bool) (v : option string) :
  truthy_str v && negb (validate (default "" v)) = false <->
  (forall s, v = Some s -> s <> "" -> validate s = true).
Proof.
  split.
  - intros H s -> Hs. simpl in H. apply String.eqb_neq in Hs. rewrite Hs in H.
    simpl in H. now apply negb_false_iff in H.
  - intros H. apply not_true_is_false. rewrite andb_true_iff, negb_true_iff.
    intros [Hv Hn]. apply truthy_str_true in Hv as (s & -> & Hs).
    simpl in Hn. rewrite (H s eq_refl Hs) in Hn. discriminate.
Qed.

Lemma validateUserInfo_outcome policy validate data :
  (validateUserInfo policy validate data = inr true <->
   within_policy policy validate data) /\
  (validateUserInfo policy validate data = inr true \/
   exists msg, msg ∈ validation_messages /\
     validateUserInfo policy validate data = inl (createError 400 msg)).
Proof.
  unfold within_policy.
  rewrite <- !shorter_than_false, <- !longer_than_false,
    <- (email_check_false validate (Payload.email data)).
  unfold validateUserInfo, validation_messages.
  destruct (shorter_than (Payload.username data) _).
  { split; [split; [discriminate|intros (H & _); discriminate]|].
    right. eexists. split; [|reflexivity].
    apply (bool_decide_unpack _). vm_compute. exact I. }
  destruct (shorter_than (Payload.password data) _).
  { split; [split; [discriminate|intros (_ & H & _); discriminate]|].
    right. eexists. split; [|reflexivity].
    apply (bool_decide_unpack _). vm_compute. exact I. }
  destruct (longer_than (Payload.password data) _).
  { split; [split; [discriminate|intros (_ & _ & H & _); discriminate]|].
    right. eexists. split; [|reflexivity].
    apply (bool_decide_unpack _). vm_compute. exact I. }
  destruct (shorter_than (Payload.nickname data) _).
  { split; [split; [discriminate|intros (_ & _ & _ & H & _); discriminate]|].
    right. eexists. split; [|reflexivity].
    apply (bool_decide_unpack _). vm_compute. exact I. }
  destruct (longer_than (Payload.nickname data) _).
  { split; [split; [discriminate|intros (_ & _ & _ & _ & H & _); discriminate]|].
    right. eexists. split; [|reflexivity].
    apply (bool_decide_unpack _). vm_compute. exact I. }
  destruct (truthy_str (Payload.email data) && _).
  { split; [split; [discriminate|intros (_ & _ & _ & _ & _ & H); discriminate]|].
    right. eexists. split; [|reflexivity].
    apply (bool_decide_unpack _). vm_compute. exact I. }
  split; [|now left]. split; [now repeat split|reflexivity].
Qed.

(** X9.  [validateUserInfo] fulfils with [true] exactly for the payloads
    in which every field that is present and not empty meets the bounds
    that are set and the email passes the validator; otherwise it throws
    an error of status 400 with one of five messages.  It never fulfils
    with [false]. *)
Theorem validateUserInfo_accepts_iff_within_policy policy validate data :
  (validateUserInfo policy validate data = inr true <->
   within_policy policy validate data) /\
  (validateUserInfo policy validate data = inr true \/
   exists msg, msg ∈ validation_messages /\
     validateUserInfo policy validate data = inl (createError 400 msg)).
Proof. apply validateUserInfo_outcome. Qed.

(** X10.  A password shorter than the minimum is rejected with the
    message "Password too long.", the same message as a password over the
    maximum (the username passing its check; lengths are the [.length] of
    the code, in UTF-16 code units). *)
Theorem validateUserInfo_short_password_message policy validate data s m :
  at_least (Payload.username data) (username_min_length policy) ->
  Payload.password data = Some s -> s <> "" ->
  password_min_length policy = Some m -> m <> 0 ->
  Z.of_nat (utf16_length s) < m ->
  validateUserInfo policy validate data = inl (createError 400 "Password too long.").
Proof.
  intros Hu Hp Hs Hm Hm0 Hlt. unfold validateUserInfo.
  apply shorter_than_false in Hu. rewrite Hu.
  assert (shorter_than (Payload.password data) (password_min_length policy) = true)
    as ->; [|reflexivity].
  unfold shorter_than. rewrite Hp, Hm. simpl.
  apply String.eqb_neq in Hs. apply Z.eqb_neq in Hm0. rewrite Hs, Hm0. simpl.
  now apply Z.ltb_lt.
Qed.

Lemma validateUserInfo_short_password_message_witness :
  validateUserInfo sample_policy has_at
    (payload_of None (Some "al@codgi.cc") (Some "日本語") None (Some "пар"))
    = inl (createError 400 "Password too long.") /\
  validateUserInfo sample_policy has_at
    (payload_of None (Some "al@codgi.cc") (Some "alice") None (Some "abc"))
    = inl (createError 400 "Password too long.").
Proof.
  split.
  { refine (validateUserInfo_short_password_message sample_policy has_at
              (payload_of None (Some "al@codgi.cc") (Some "日本語") None
                 (Some "пар"))
              "пар" 6 _ eq_refl _ eq_refl _ _).
    - intros s m [= <-] _ [= <-] _. vm_compute. discriminate.
    - discriminate.
    - discriminate.
    - reflexivity. }
  refine (validateUserInfo_short_password_message sample_policy has_at
            (payload_of None (Some "al@codgi.cc") (Some "alice") None (Some "abc"))
            "abc" 6 _ eq_refl _ eq_refl _ _).
  - intros s m [= <-] _ [= <-] _. vm_compute. discriminate.
  - discriminate.
  - discriminate.
  - reflexivity.
Defined.

(** X11.  Fields that are undefined or empty are not validated: a payload
    whose username, password, nickname and email are each undefined or the
    empty string is accepted under every policy and every email
    validator. *)
Theorem validateUserInfo_skips_empty_fields policy validate data :
  truthy_str (Payload.username data) = false ->
  truthy_str (Payload.password data) = false ->
  truthy_str (Payload.nickname data) = false ->
  truthy_str (Payload.email data) = false ->
  validateUserInfo policy validate data = inr true.
Proof.
  intros Hu Hp Hn He. unfold validateUserInfo, shorter_than, longer_than.
  now rewrite Hu, Hp, Hn, He.
Qed.

Lemma validateUserInfo_skips_empty_fields_witness :
  validateUserInfo sample_policy has_at
    (payload_of (Some 1) (Some "") (Some "") None None) = inr true.
Proof.
  exact (validateUserInfo_skips_empty_fields sample_policy has_at
           (payload_of (Some 1) (Some "") (Some "") None None)
           eq_refl eq_refl eq_refl eq_refl).
Defined.

Lemma utf16_length_app (s t : string) :
  utf16_length (s ++ t) = (utf16_length s + utf16_length t)%nat.
Proof.
  induction s as [|c s IH]; [reflexivity|].
  change (utf16_length (String c s ++ t))
    with (utf16_units c + utf16_length (s ++ t))%nat.
  rewrite IH. cbn [utf16_length]. lia.
Qed.

(** X12.  No username is too long for [validateUserInfo]: when a payload
    is accepted it stays accepted with anything appended to its non-empty
    username. *)
Theorem validateUserInfo_username_has_no_upper_bound policy validate data s t :
  Payload.username data = Some s -> s <> "" ->
  validateUserInfo policy validate data = inr true ->
  validateUserInfo policy validate
    (Payload.mk (Payload.id data) (Payload.email data) (Some (s ++ t))
       (Payload.nickname data) (Payload.sex data) (Payload.motto data)
       (Payload.description data) (Payload.privilege data) (Payload.password data))
    = inr true.
Proof.
  intros Hu Hs H.
  apply (proj1 (validateUserInfo_outcome _ _ _)) in H.
  apply (proj1 (validateUserInfo_outcome _ _ _)).
  destruct H as (H1 & H2). split; [|exact H2].
  intros s' m [= <-] _ Hm Hm0.
  specialize (H1 s m Hu Hs Hm Hm0).
  rewrite utf16_length_app. lia.
Qed.

Lemma validateUserInfo_username_has_no_upper_bound_witness :
  validateUserInfo sample_policy has_at
    (Payload.mk None (Some "al@codgi.cc")
       (Some ("alice" ++ "-with-a-very-long-tail-that-no-bound-stops"))
       None None None None None (Some "secret1"))
    = inr true.
Proof.
  refine (validateUserInfo_username_has_no_upper_bound sample_policy has_at
            (payload_of None (Some "al@codgi.cc") (Some "alice") None (Some "secret1"))
            "alice" "-with-a-very-long-tail-that-no-bound-stops" eq_refl _ _).
  - discriminate.
  - vm_compute. reflexivity.
Defined.

(** ** postUser: what is refused before anything is written *)

(** X13.  [postUser] refuses three kinds of call without writing
    anything.  A payload without a non-empty email and username gets the
    invalid-parameter error, also when it is an update.  An update of an
    id that has no identity, or whose identity has no credential, gets 400
    "User does not exist.".  An update whose lookup the database rejects
    gets the generic 500, the error of the driver being logged.  In the
    last two cases the lookup is the only repository call made. *)
Theorem postUser_refuses_before_writing env data w :
  (truthy_str (Payload.email data) = false \/
   truthy_str (Payload.username data) = false ->
   postUser env data w = (inl (createError 500 "Invalid parameters."), w)) /\
  (forall i,
     truthy_str (Payload.email data) = true ->
     truthy_str (Payload.username data) = true ->
     if_truthy_num (Payload.id data) = Some i ->
     fault env (CredentialFindOne i) = None ->
     find_user i (users w) = None \/
     List.find (fun c => eqb_opt (row_user c) (Some i)) (credentials w) = None ->
     postUser env data w
       = (inl (createError 400 "User does not exist."),
          record_call (CredentialFindOne i) w)) /\
  (forall i err,
     truthy_str (Payload.email data) = true ->
     truthy_str (Payload.username data) = true ->
     if_truthy_num (Payload.id data) = Some i ->
     fault env (CredentialFindOne i) = Some err ->
     postUser env data w
       = (inl (createError 500 "Database operation failed."),
          record_console err (record_call (CredentialFindOne i) w))).
Proof.
  split; [apply postUser_requires_email_and_username|]. split.
  - intros i He Hu Hid Hf Hmiss.
    rewrite postUser_run. unfold postUser_entities. rewrite He, Hu, Hid.
    simpl. run. unfold userCredentialRepository_findOne. rewrite Hf.
    cbn [credentials users record_call].
    destruct Hmiss as [-> | ->]; [|reflexivity].
    destruct (List.find _ (credentials w)); reflexivity.
  - intros i err He Hu Hid Hf.
    rewrite postUser_run. unfold postUser_entities. rewrite He, Hu, Hid.
    simpl. run. unfold userCredentialRepository_findOne. now rewrite Hf.
Qed.

Lemma postUser_refuses_before_writing_witness :
  postUser (sample_env true no_fault)
    (payload_of (Some 1) None (Some "zk") (Some "Zed") None) seeded_world
    = (inl (createError 500 "Invalid parameters."), seeded_world) /\
  postUser (sample_env true no_fault)
    (payload_of (Some 7) (Some "zk@codgi.cc") (Some "zk") None None) seeded_world
    = (inl (createError 400 "User does not exist."),
       record_call (CredentialFindOne 7) seeded_world) /\
  postUser (sample_env true database_down)
    (payload_of (Some 1) (Some "zk@codgi.cc") (Some "zk") None None) seeded_world
    = (inl (createError 500 "Database operation failed."),
       record_console ER_LOCK_WAIT_TIMEOUT
         (record_call (CredentialFindOne 1) seeded_world)).
Proof.
  split; [|split].
  - refine (proj1 (postUser_refuses_before_writing (sample_env true no_fault)
                     (payload_of (Some 1) None (Some "zk") (Some "Zed") None)
                     seeded_world) _).
    left. reflexivity.
  - exact (proj1 (proj2 (postUser_refuses_before_writing (sample_env true no_fault)
                     (payload_of (Some 7) (Some "zk@codgi.cc") (Some "zk") None None)
                     seeded_world)) 7 eq_refl eq_refl eq_refl eq_refl
             (or_introl eq_refl)).
  - exact (proj2 (proj2 (postUser_refuses_before_writing (sample_env true database_down)
                     (payload_of (Some 1) (Some "zk@codgi.cc") (Some "zk") None None)
                     seeded_world)) 1 ER_LOCK_WAIT_TIMEOUT
             eq_refl eq_refl eq_refl eq_refl).
Defined.

(** X14.  When the save of the identity is rejected for another reason
    than a duplicate, [postUser] throws the generic 500 "Database operation
    failed." and logs the error of the driver; both tables are as before
    and no save of a credential is attempted. *)
Theorem postUser_identity_save_failure env data w user cred w1 err w2 :
  postUser_entities env data w = (inr (user, cred), w1) ->
  userRepository_save env user w1 = (inl err, w2) ->
  errno err <> Some 1062 ->
  postUser env data w
    = (inl (createError 500 "Database operation failed."), record_console err w2) /\
  users w2 = users w /\ credentials w2 = credentials w /\
  (forall c, CredentialSave c ∈ trace w2 -> CredentialSave c ∈ trace w).
Proof.
  intros He Hs Herr.
  rewrite postUser_run, He, postUser_persist_run, Hs.
  assert (eqb_opt (errno err) (Some 1062) = false) as ->.
  { apply not_true_is_false. now rewrite eqb_opt_true. }
  apply userRepository_save_inl in Hs as ->.
  apply postUser_entities_inr in He as (_ & _ & Hu & Hc & Ht & _).
  split; [reflexivity|]. simpl. repeat split; try assumption.
  intros c. rewrite Ht, !elem_of_app.
  intros [[H|H]|H]; [assumption| |].
  - destruct (if_truthy_num (Payload.id data)).
    + apply list_elem_of_singleton in H. discriminate.
    + now apply elem_of_nil in H.
  - apply list_elem_of_singleton in H. discriminate.
Qed.

Lemma postUser_identity_save_failure_witness :
  exists w2,
    postUser (sample_env true user_save_fails)
      (signup "al@codgi.cc" "al" (Some "secret1")) seeded_world
      = (inl (createError 500 "Database operation failed."),
         record_console ER_LOCK_WAIT_TIMEOUT w2) /\
    users w2 = users seeded_world /\ credentials w2 = credentials seeded_world /\
    (forall c, CredentialSave c ∈ trace w2 -> CredentialSave c ∈ trace seeded_world).
Proof.
  eexists.
  eapply (postUser_identity_save_failure (sample_env true user_save_fails)
            (signup "al@codgi.cc" "al" (Some "secret1")) seeded_world).
  - vm_compute. reflexivity.
  - vm_compute. reflexivity.
  - discriminate.
Defined.

(** X15.  With a database that answers every call, [postUser] fulfils as
    soon as the payload has a non-empty email and username that no other
    identity holds and, for an update, the identity and its credential
    exist; a password that [updatePassword] rejects does not stand in the
    way. *)
Theorem postUser_fulfils_when_database_answers env data w :
  truthy_str (Payload.email data) = true ->
  truthy_str (Payload.username data) = true ->
  (forall c, fault env c = None) ->
  (forall i, if_truthy_num (Payload.id data) = Some i ->
     is_Some (List.find (fun c => eqb_opt (row_user c) (Some i)) (credentials w)) /\
     is_Some (find_user i (users w))) ->
  (forall r, r ∈ users w -> User.id r <> if_truthy_num (Payload.id data) ->
     User.email r <> Payload.email data /\
     User.username r <> Payload.username data) ->
  exists u w', postUser env data w = (inr u, w').
Proof. apply postUser_succeeds. Qed.

Lemma postUser_fulfils_when_database_answers_witness :
  exists u w',
    postUser (sample_env true no_fault) edit_zk seeded_world = (inr u, w').
Proof.
  refine (postUser_fulfils_when_database_answers (sample_env true no_fault)
            edit_zk seeded_world eq_refl eq_refl (fun _ => eq_refl) _ _).
  - intros i [= <-]. split; eexists; vm_compute; reflexivity.
  - intros r Hr Hid. apply list_elem_of_singleton in Hr. subst r.
    now destruct Hid.
Defined.

(** ** postUser keeps the tables well formed *)

Lemma postUser_entities_tables env data w r w1 :
  postUser_entities env data w = (r, w1) ->
  users w1 = users w /\ credentials w1 = credentials w /\
  nextUserId w1 = nextUserId w.
Proof.
  unfold postUser_entities. intros H.
  destruct (negb _); [now injection H as _ <-|].
  run.
  destruct (if_truthy_num (Payload.id data)) as [i|].
  - unfold userCredentialRepository_findOne in H.
    destruct (fault env (CredentialFindOne i)); [now injection H as _ <-|].
    simpl in H.
    destruct (List.find _ (credentials w)) as [c|]; [|now injection H as _ <-].
    destruct (find_user i (users w)) as [old|]; [|now injection H as _ <-].
    simpl in H.
    destruct (if_truthy_str (Payload.password data)) as [pw|];
      [unfold updatePassword_unawaited in H; destruct (updatePassword env _ pw)|];
      now injection H as _ <-.
  - simpl in H.
    destruct (if_truthy_str (Payload.password data)) as [pw|];
      [unfold updatePassword_unawaited in H; destruct (updatePassword env _ pw)|];
      now injection H as _ <-.
Qed.

Lemma userRepository_save_credentials env user w r w' :
  userRepository_save env user w = (r, w') ->
  credentials w' = credentials w /\ nextUserId w <= nextUserId w'.
Proof.
  unfold userRepository_save. intros H.
  destruct (fault env (UserSave user)).
  { injection H as _ <-. simpl. split; [reflexivity|lia]. }
  simpl in H. destruct (duplicate_entry user (users w)).
  { injection H as _ <-. simpl. split; [reflexivity|lia]. }
  destruct (has_row _ _); injection H as _ <-; simpl; split;
    first [reflexivity | lia].
Qed.

Lemma credentials_refer_below_mono w w' :
  credentials w' = credentials w -> nextUserId w <= nextUserId w' ->
  credentials_refer_below w -> credentials_refer_below w'.
Proof.
  unfold credentials_refer_below. intros -> Hle H c Hc.
  destruct (H c Hc) as (i & Hi & Hlt). exists i. split; [exact Hi|lia].
Qed.

Lemma userCredentialRepository_save_refer env c w r w' u i :
  userCredentialRepository_save env c w = (r, w') ->
  UserCredential.user c = Some u -> User.id u = Some i -> i < nextUserId w ->
  credentials_refer_below w -> credentials_refer_below w'.
Proof.
  unfold userCredentialRepository_save, credentials_refer_below.
  intros H Hu Hi Hlt Hw.
  assert (Hrow : forall k, row_user (credential_row k c) = Some i).
  { intros k. unfold credential_row. simpl. now rewrite Hu. }
  destruct (fault env (CredentialSave c)); [now injection H as _ <-|].
  simpl in H.
  destruct (defined _ && existsb _ _); injection H as _ <-; simpl; intros c0 Hc0.
  - apply list_elem_of_fmap in Hc0 as (r0 & -> & Hr0).
    destruct (row_id r0 =? _); [|now apply Hw].
    exists i. split; [apply Hrow|exact Hlt].
  - apply elem_of_app in Hc0 as [Hc0|Hc0]; [now apply Hw|].
    apply list_elem_of_singleton in Hc0. subst c0.
    exists i. split; [apply Hrow|exact Hlt].
Qed.

Lemma userRepository_remove_refer env user w r w' :
  userRepository_remove env user w = (r, w') ->
  credentials_refer_below w -> credentials_refer_below w'.
Proof.
  unfold userRepository_remove, credentials_refer_below. intros H Hw.
  destruct (fault env (UserRemove user)); [now injection H as _ <-|].
  destruct (defined (User.id user)); injection H as _ <-; [|exact Hw].
  simpl. intros c Hc. apply list_elem_of_In, filter_In in Hc as [Hc _].
  apply Hw. now apply list_elem_of_In.
Qed.

Lemma postUser_well_formed env data w r w' :
  postUser env data w = (r, w') -> well_formed w -> well_formed w'.
Proof.
  intros H [Hd Hc]. split; [exact (postUser_distinct_ids _ _ _ _ _ H Hd)|].
  rewrite postUser_run in H.
  destruct (postUser_entities env data w) as [[e|[user cred]] w1] eqn:He;
    apply postUser_entities_tables in He as (Hu1 & Hc1 & Hn1).
  { injection H as _ <-. apply (credentials_refer_below_mono w); [assumption|lia|assumption]. }
  assert (Hd1 : distinct_ids w1) by now apply (distinct_ids_same w).
  assert (Hr1 : credentials_refer_below w1)
    by (apply (credentials_refer_below_mono w); [assumption|lia|assumption]).
  rewrite postUser_persist_run in H.
  destruct (userRepository_save env user w1) as [[err|user'] w2] eqn:Hs.
  { apply userRepository_save_credentials in Hs as [Hc2 Hn2].
    pose proof (credentials_refer_below_mono _ _ Hc2 Hn2 Hr1) as Hr2.
    destruct (eqb_opt _ _); now injection H as _ <-. }
  pose proof (userRepository_save_distinct_ids _ _ _ _ _ Hs Hd1) as Hd2.
  destruct (userRepository_save_elem _ _ _ _ _ Hs) as (Hin & i & Hi).
  destruct (proj2 Hd2 user' Hin) as (j & Hj & Hlt).
  apply userRepository_save_credentials in Hs as [Hc2 Hn2].
  pose proof (credentials_refer_below_mono _ _ Hc2 Hn2 Hr1) as Hr2.
  destruct (userCredentialRepository_save env _ w2) as [[err|c'] w3] eqn:Hcs;
    apply (userCredentialRepository_save_refer _ _ _ _ _ user' j) in Hcs;
    try assumption; try reflexivity.
  2: { now injection H as _ <-. }
  destruct (userRepository_remove env user' (record_console err w3))
    as [[e|[]] w4] eqn:Hr;
    apply userRepository_remove_refer in Hr; try exact Hcs;
    now injection H as _ <-.
Qed.

(** X16.  [postUser] keeps the tables well formed whatever the database
    answers and however the call ends: the ids of the identities stay
    distinct and below the next id to be generated, and every credential
    keeps referring to an id that has been generated. *)
Theorem postUser_preserves_well_formed env data w r w' :
  well_formed w ->
  postUser env data w = (r, w') ->
  well_formed w'.
Proof. intros Hw H. exact (postUser_well_formed _ _ _ _ _ H Hw). Qed.

Lemma seeded_world_well_formed : well_formed seeded_world.
Proof.
  split; [split|].
  - apply (bool_decide_unpack _). vm_compute. exact I.
  - intros u Hu. apply list_elem_of_singleton in Hu. subst u.
    exists 1. split; [reflexivity|]. simpl. lia.
  - intros c Hc. apply list_elem_of_singleton in Hc. subst c.
    exists 1. split; [reflexivity|]. simpl. lia.
Qed.

Lemma postUser_preserves_well_formed_witness :
  well_formed
    (snd (postUser (sample_env true credential_save_fails)
            (signup "al@codgi.cc" "al" (Some "secret1")) seeded_world)).
Proof.
  refine (postUser_preserves_well_formed (sample_env true credential_save_fails)
            (signup "al@codgi.cc" "al" (Some "secret1")) seeded_world _ _
            seeded_world_well_formed _).
  apply surjective_pairing.
Defined.

(** ** postUser, then a lookup *)

Lemma find_unique {A} `{EqDecision A} (P : A -> bool) (l : list A) (x : A) :
  x ∈ l -> P x = true ->
  (forall y, y ∈ l -> y <> x -> P y = false) ->
  List.find P l = Some x.
Proof.
  induction l as [|y l IH]; intros Hx HP Hothers.
  - now apply elem_of_nil in Hx.
  - simpl. destruct (decide (y = x)) as [->|Hne].
    + now rewrite HP.
    + rewrite (Hothers y) by (auto; apply elem_of_cons; auto).
      apply IH; [|exact HP|].
      * apply elem_of_cons in Hx as [Hx|Hx]; [congruence|exact Hx].
      * intros z Hz. apply Hothers. apply elem_of_cons. auto.
Qed.

Lemma duplicate_entry_false_elim (u r : User.t) (rows : list User.t) :
  duplicate_entry u rows = false -> r ∈ rows -> User.id r <> User.id u ->
  (defined (User.email u) = true -> User.email r <> User.email u) /\
  (defined (User.username u) = true -> User.username r <> User.username u).
Proof.
  unfold duplicate_entry. intros Hd Hr Hid.
  assert (Hnot : (fun r =>
            negb (eqb_opt (User.id r) (User.id u)) &&
            ((defined (User.email u) && eqb_opt (User.email r) (User.email u)) ||
             (defined (User.username u) &&
              eqb_opt (User.username r) (User.username u)))) r = false).
  { apply not_true_is_false. intros Ht.
    assert (existsb (fun r =>
              negb (eqb_opt (User.id r) (User.id u)) &&
              ((defined (User.email u) && eqb_opt (User.email r) (User.email u)) ||
               (defined (User.username u) &&
                eqb_opt (User.username r) (User.username u)))) rows = true).
    { apply existsb_exists. exists r. split; [now apply list_elem_of_In|exact Ht]. }
    congruence. }
  simpl in Hnot.
  assert (Hne : eqb_opt (User.id r) (User.id u) = false).
  { apply not_true_is_false. now rewrite eqb_opt_true. }
  rewrite Hne in Hnot. simpl in Hnot. apply orb_false_iff in Hnot as [He Hu].
  split; intros Hdef; rewrite Hdef in *; simpl in *.
  - intros E. apply eqb_opt_true in E. congruence.
  - intros E. apply eqb_opt_true in E. congruence.
Qed.

(** After a successful save the identity is the only row with its id, its
    email and its username. *)
Lemma userRepository_save_unique env user w u w' :
  distinct_ids w ->
  userRepository_save env user w = (inr u, w') ->
  u ∈ users w' /\
  User.email u = User.email user /\ User.username u = User.username user /\
  forall r, r ∈ users w' -> r <> u ->
    User.id r <> User.id u /\
    (defined (User.email u) = true -> User.email r <> User.email u) /\
    (defined (User.username u) = true -> User.username r <> User.username u).
Proof.
  intros [_ Hlt] Hs.
  destruct (userRepository_save_elem _ _ _ _ _ Hs) as (Hin & _).
  destruct (userRepository_save_fields _ _ _ _ _ Hs) as (He & Hn & _).
  split; [exact Hin|]. split; [exact He|]. split; [exact Hn|].
  apply userRepository_save_inr in Hs
    as (_ & Hdup & _ & _ & _ & _ & [(Hr & -> & Hu) | (Hr & Hu' & Hu)]).
  - intros r' Hr' Hne. rewrite Hu in Hr'. unfold replace_row in Hr'.
    apply list_elem_of_fmap in Hr' as (r & -> & Hin').
    destruct (eqb_opt (User.id r) (User.id user)) eqn:E; [congruence|].
    assert (Hid : User.id r <> User.id user).
    { intros Heq. apply eqb_opt_true in Heq. congruence. }
    split; [exact Hid|]. now apply (duplicate_entry_false_elim user r (users w)).
  - intros r Hr' Hne. rewrite Hu in Hr'.
    apply elem_of_app in Hr' as [Hr'|Hr'];
      [|apply list_elem_of_singleton in Hr'; congruence].
    destruct (Hlt r Hr') as (k & Hk & Hk').
    assert (Hid : User.id r <> User.id u /\ User.id r <> User.id user).
    { rewrite Hu'. simpl. destruct (User.id user) as [j|] eqn:Hj; simpl.
      - split; now apply (has_row_false_fresh j (users w)).
      - rewrite Hk. split; [|discriminate]. intros [= ->]. lia. }
    split; [apply Hid|].
    rewrite He, Hn.
    now apply (duplicate_entry_false_elim user r (users w)).
Qed.

Lemma matches_id env i r :
  matches env "id" (KNum i) r = eqb_opt (User.id r) (Some i).
Proof. reflexivity. Qed.

Lemma matches_username env n r :
  matches env "username" (KStr n) r = eqb_opt (User.username r) (Some n).
Proof. reflexivity. Qed.

Lemma matches_email env e r :
  matches env "email" (KStr e) r = eqb_opt (User.email r) (Some e).
Proof. reflexivity. Qed.

Lemma getUserInfo_finds env by_ data w u :
  truthy_key data = true -> valid_by by_ = true ->
  fault env (UserFindOne by_ data) = None ->
  u ∈ users w -> matches env by_ data u = true ->
  (forall r, r ∈ users w -> r <> u -> matches env by_ data r = false) ->
  fst (getUserInfo env data (Some by_) w) = inr (Some u).
Proof.
  intros Hk Hb Hf Hin Hm Hothers.
  rewrite getUserInfo_valid by assumption. simpl.
  f_equal. now apply find_unique.
Qed.

(** X17.  What [postUser] has stored can be looked up: in a table with
    distinct ids, after a successful [postUser] a [getUserInfo] by the id,
    by the username or by the email of the identity returned fulfils with
    that very identity (the database answering). *)
Theorem postUser_then_getUserInfo env data w u w' :
  distinct_ids w ->
  postUser env data w = (inr u, w') ->
  exists i e n,
    User.id u = Some i /\ User.email u = Some e /\ User.username u = Some n /\
    Payload.email data = Some e /\ Payload.username data = Some n /\
    forall env',
      (forall c, fault env' c = None) ->
      (i <> 0 -> fst (getUserInfo env' (KNum i) (Some "id") w') = inr (Some u)) /\
      fst (getUserInfo env' (KStr n) (Some "username") w') = inr (Some u) /\
      fst (getUserInfo env' (KStr e) (Some "email") w') = inr (Some u).
Proof.
  intros Hd H.
  apply postUser_inr in H as (user & cred & w1 & w2 & c' & He & Hs & Hc).
  pose proof (postUser_entities_tables _ _ _ _ _ He) as (Hu1 & _ & Hn1).
  apply postUser_entities_inr in He as (Hte & Htn & _ & _ & _ & base & _ & ->).
  apply truthy_str_true in Hte as (e & Ee & Hne).
  apply truthy_str_true in Htn as (n & En & Hnn).
  assert (Hd1 : distinct_ids w1) by now apply (distinct_ids_same w).
  destruct (userRepository_save_elem _ _ _ _ _ Hs) as (_ & i & Hi).
  destruct (userRepository_save_unique _ _ _ _ _ Hd1 Hs)
    as (Hin & Hemail & Hname & Hothers).
  apply userCredentialRepository_save_inr in Hc as (Hu3 & _).
  simpl in Hemail, Hname. rewrite Ee in Hemail. rewrite En in Hname.
  simpl in Hemail, Hname.
  exists i, e, n. repeat (split; [assumption|]).
  intros env' Hf. rewrite <- Hu3 in Hin, Hothers.
  split; [|split].
  - intros Hi0. apply getUserInfo_finds; try apply Hf; try assumption.
    + simpl. now apply negb_true_iff, Z.eqb_neq.
    + reflexivity.
    + rewrite matches_id. now apply eqb_opt_true.
    + intros r Hr Hne'. rewrite matches_id. apply not_true_is_false.
      rewrite eqb_opt_true, <- Hi. now apply Hothers.
  - apply getUserInfo_finds; try apply Hf; try assumption.
    + simpl. now apply negb_true_iff, String.eqb_neq.
    + reflexivity.
    + rewrite matches_username. now apply eqb_opt_true.
    + intros r Hr Hne'. rewrite matches_username. apply not_true_is_false.
      rewrite eqb_opt_true, <- Hname. apply Hothers; try assumption.
      now rewrite Hname.
  - apply getUserInfo_finds; try apply Hf; try assumption.
    + simpl. now apply negb_true_iff, String.eqb_neq.
    + reflexivity.
    + rewrite matches_email. now apply eqb_opt_true.
    + intros r Hr Hne'. rewrite matches_email. apply not_true_is_false.
      rewrite eqb_opt_true, <- Hemail. apply Hothers; try assumption.
      now rewrite Hemail.
Qed.

Lemma postUser_then_getUserInfo_witness :
  exists u w',
    postUser (sample_env true no_fault) (signup "al@codgi.cc" "al" (Some "secret1"))
      seeded_world = (inr u, w') /\
    fst (getUserInfo (sample_env false no_fault) (KNum 2) (Some "id") w')
      = inr (Some u) /\
    fst (getUserInfo (sample_env false no_fault) (KStr "al") (Some "username") w')
      = inr (Some u) /\
    fst (getUserInfo (sample_env false no_fault) (KStr "al@codgi.cc") (Some "email") w')
      = inr (Some u).
Proof.
  eexists _, _.
  assert (E : postUser (sample_env true no_fault)
                (signup "al@codgi.cc" "al" (Some "secret1")) seeded_world
              = (inr _, _)) by (vm_compute; reflexivity).
  split; [exact E|].
  destruct (postUser_then_getUserInfo _ _ _ _ _ (proj1 seeded_world_well_formed) E)
    as (i & e & n & Hi & _ & _ & He & Hn & H).
  injection Hi as <-. injection He as <-. injection Hn as <-.
  destruct (H (sample_env false no_fault) (fun _ => eq_refl)) as (H1 & H2 & H3).
  split; [apply H1; discriminate|]. split; [exact H2|exact H3].
Defined.

(** ** postUser and the other identities *)

Lemma find_user_replace_other j u rows :
  User.id u <> Some j -> find_user j (replace_row u rows) = find_user j rows.
Proof.
  intros Hne. unfold find_user, replace_row.
  induction rows as [|r rows IH]; [reflexivity|].
  rewrite fmap_cons. simpl.
  destruct (eqb_opt (User.id r) (User.id u)) eqn:E.
  - apply eqb_opt_true in E.
    assert (eqb_opt (User.id u) (Some j) = false) as ->
        by (apply not_true_is_false; now rewrite eqb_opt_true).
    assert (eqb_opt (User.id r) (Some j) = false) as ->
        by (apply not_true_is_false; rewrite eqb_opt_true; congruence).
    exact IH.
  - destruct (eqb_opt (User.id r) (Some j)); [reflexivity|exact IH].
Qed.

Lemma find_user_app_other j u rows :
  User.id u <> Some j -> find_user j (rows ++ [u]) = find_user j rows.
Proof.
  intros Hne. unfold find_user.
  induction rows as [|r rows IH]; simpl.
  - assert (eqb_opt (User.id u) (Some j) = false) as ->
        by (apply not_true_is_false; now rewrite eqb_opt_true).
    reflexivity.
  - destruct (eqb_opt (User.id r) (Some j)); [reflexivity|exact IH].
Qed.

(** X18.  A successful [postUser] touches one identity only: every other
    id looks up as before; and an update leaves the id and the creation
    date of the identity as they were. *)
Theorem postUser_leaves_other_identities env data w u w' :
  postUser env data w = (inr u, w') ->
  (forall j, User.id u <> Some j -> find_user j (users w') = find_user j (users w)) /\
  (forall i, if_truthy_num (Payload.id data) = Some i ->
     exists old, find_user i (users w) = Some old /\
       User.id u = User.id old /\ User.createdAt u = User.createdAt old).
Proof.
  intros H. split.
  - intros j Hj.
    apply postUser_inr in H as (user & cred & w1 & w2 & c' & He & Hs & Hc).
    apply postUser_entities_tables in He as (Hu1 & _ & _).
    apply userCredentialRepository_save_inr in Hc as (Hu3 & _).
    apply userRepository_save_inr in Hs
      as (_ & _ & _ & _ & _ & _ & [(_ & -> & Hu2) | (_ & _ & Hu2)]);
      rewrite Hu3, Hu2, <- Hu1.
    + now apply find_user_replace_other.
    + now apply find_user_app_other.
  - intros i Hid.
    destruct (postUser_update _ _ _ _ _ _ Hid H) as (old & Hold & _ & ->).
    exists old. now repeat split.
Qed.

Lemma postUser_leaves_other_identities_witness :
  exists u w',
    postUser (sample_env true no_fault) (signup "al@codgi.cc" "al" None)
      (numbered_world 3) = (inr u, w') /\
    find_user 2 (users w') = find_user 2 (users (numbered_world 3)).
Proof.
  eexists _, _.
  assert (E : postUser (sample_env true no_fault) (signup "al@codgi.cc" "al" None)
                (numbered_world 3) = (inr _, _)) by (vm_compute; reflexivity).
  split; [exact E|].
  apply (proj1 (postUser_leaves_other_identities _ _ _ _ _ E) 2). discriminate.
Defined.

(** ** postUser when the second write fails *)

Lemma filter_all {A} (f : A -> bool) (l : list A) :
  (forall x, x ∈ l -> f x = true) -> List.filter f l = l.
Proof.
  induction l as [|x l IH]; intros H; simpl; [reflexivity|].
  rewrite (H x) by (apply elem_of_cons; auto).
  f_equal. apply IH. intros y Hy. apply H. apply elem_of_cons. auto.
Qed.

Lemma filter_app_drop_last {A} (f : A -> bool) (l : list A) (x : A) :
  (forall y, y ∈ l -> f y = true) -> f x = false ->
  List.filter f (l ++ [x]) = l.
Proof.
  intros Hl Hx. rewrite List.filter_app. simpl. rewrite Hx, app_nil_r.
  now apply filter_all.
Qed.

(** X19.  A signup that fails leaves both tables as they were, unless the
    revert itself failed: in a well-formed world, when [postUser] for a
    payload without a truthy id throws anything but "Database operation
    failed. Reverting failed as well.", the identities and the credentials
    are exactly those from before the call. *)
Theorem postUser_failed_signup_leaves_tables env data w e w' :
  well_formed w ->
  if_truthy_num (Payload.id data) = None ->
  postUser env data w = (inl e, w') ->
  e <> createError 500 "Database operation failed. Reverting failed as well." ->
  users w' = users w /\ credentials w' = credentials w.
Proof.
  intros [[_ Hlt] Href] Hid H Hne. rewrite postUser_run in H.
  destruct (postUser_entities env data w) as [[e0|[user cred]] w1] eqn:He.
  { apply postUser_entities_tables in He as (Hu & Hc & _). now injection H as _ <-. }
  pose proof (postUser_entities_tables _ _ _ _ _ He) as (Hu1 & Hc1 & Hn1).
  apply postUser_entities_inr in He as (_ & _ & _ & _ & _ & base & Hb & ->).
  unfold base_user in Hb. rewrite Hid in Hb. subst base.
  rewrite postUser_persist_run in H.
  destruct (userRepository_save env _ w1) as [[err|user'] w2] eqn:Hs.
  { apply userRepository_save_inl in Hs as ->.
    destruct (eqb_opt _ _); now injection H as _ <-. }
  apply userRepository_save_inr in Hs
    as (_ & _ & Hc2 & _ & _ & _ & [(Hr & _) | (_ & Hu' & Hu2)]);
    [discriminate Hr|].
  destruct (userCredentialRepository_save env _ w2) as [[err|c'] w3] eqn:Hcs;
    [|discriminate].
  apply userCredentialRepository_save_inl in Hcs as [_ ->].
  assert (Hi : User.id user' = Some (nextUserId w1)) by now subst user'.
  rewrite (userRepository_remove_run _ _ _ _ Hi) in H.
  destruct (fault env (UserRemove user')).
  { injection H as <- _. now destruct Hne. }
  injection H as _ <-. simpl. rewrite Hu2, Hc2, Hc1, <- Hu1. split.
  - apply filter_app_drop_last.
    + intros r Hr. apply negb_true_iff, not_true_is_false. rewrite eqb_opt_true.
      rewrite Hu1 in Hr. destruct (Hlt r Hr) as (k & -> & Hk).
      intros [= ->]. lia.
    + rewrite Hi. now rewrite eqb_opt_refl.
  - apply filter_all. intros c Hc.
    apply negb_true_iff, not_true_is_false. rewrite eqb_opt_true.
    destruct (Href c Hc) as (k & -> & Hk). intros [= ->]. lia.
Qed.

Lemma postUser_failed_signup_leaves_tables_witness :
  let w' := snd (postUser (sample_env true credential_save_fails)
                   (signup "al@codgi.cc" "al" (Some "secret1")) seeded_world) in
  users w' = users seeded_world /\ credentials w' = credentials seeded_world.
Proof.
  refine (postUser_failed_signup_leaves_tables (sample_env true credential_save_fails)
            (signup "al@codgi.cc" "al" (Some "secret1")) seeded_world
            (createError 500 "Database operation failed.") _
            seeded_world_well_formed eq_refl _ _).
  - vm_compute. reflexivity.
  - discriminate.
Defined.

(** X20.  On the update path the revert removes an identity that existed
    before the call: when the identity of a truthy id has been saved, the
    save of its credential is rejected and the removal goes through,
    [postUser] throws the storage error and the identity that was there,
    with every credential referring to it, is gone. *)
Theorem postUser_failed_update_deletes_identity
    env data w i user cred w1 user' w2 err w3 :
  if_truthy_num (Payload.id data) = Some i ->
  postUser_entities env data w = (inr (user, cred), w1) ->
  userRepository_save env user w1 = (inr user', w2) ->
  userCredentialRepository_save env (UserCredential.set_user (Some user') cred) w2
    = (inl err, w3) ->
  fault env (UserRemove user') = None ->
  exists old,
    find_user i (users w) = Some old /\
    fst (postUser env data w) = inl (createError 500 "Database operation failed.") /\
    find_user i (users (snd (postUser env data w))) = None /\
    (forall c, c ∈ credentials (snd (postUser env data w)) -> row_user c <> Some i).
Proof.
  intros Hid He Hs Hc Hf.
  pose proof (postUser_entities_inr _ _ _ _ _ _ He)
    as (_ & _ & Hu1 & _ & _ & base & Hb & Huser).
  unfold base_user in Hb. rewrite Hid in Hb. destruct Hb as (old & Hold & ->).
  exists old. split; [exact Hold|].
  destruct (find_user_Some _ _ _ Hold) as [_ Hoid].
  assert (Hi : User.id user' = Some i).
  { rewrite <- Hu1 in Hold. pose proof (has_row_find_user _ _ _ Hold) as Hrow.
    apply userRepository_save_inr in Hs
      as (_ & _ & _ & _ & _ & _ & [(_ & -> & _) | (Hno & _)]).
    - now subst user.
    - subst user. simpl in Hno. rewrite Hoid in Hno. congruence. }
  rewrite postUser_run, He, postUser_persist_run, Hs, Hc.
  rewrite (userRepository_remove_run _ _ _ i Hi), Hf. simpl.
  split; [reflexivity|]. split; [apply find_user_filter_out|].
  intros c Hin. apply list_elem_of_In, filter_In in Hin as [_ Hin].
  apply negb_true_iff in Hin. intros E. apply eqb_opt_true in E. congruence.
Qed.

Lemma postUser_failed_update_deletes_identity_witness :
  exists old,
    find_user 1 (users seeded_world) = Some old /\
    fst (postUser (sample_env true credential_save_fails) edit_zk seeded_world)
      = inl (createError 500 "Database operation failed.") /\
    find_user 1 (users (snd (postUser (sample_env true credential_save_fails)
                               edit_zk seeded_world))) = None /\
    (forall c,
       c ∈ credentials (snd (postUser (sample_env true credential_save_fails)
                               edit_zk seeded_world)) ->
       row_user c <> Some 1).
Proof.
  eapply (postUser_failed_update_deletes_identity
            (sample_env true credential_save_fails) edit_zk seeded_world 1).
  - reflexivity.
  - vm_compute. reflexivity.
  - vm_compute. reflexivity.
  - vm_compute. reflexivity.
  - reflexivity.
Defined.

(** ** postUser and the credential *)

Lemma userCredentialRepository_findOne_run env i w :
  fault env (CredentialFindOne i) = None ->
  userCredentialRepository_findOne env i w
    = (inr (stored_credential i w), record_call (CredentialFindOne i) w).
Proof.
  intros Hf. unfold userCredentialRepository_findOne. now rewrite Hf.
Qed.

(** The entities of a signup. *)
Lemma postUser_entities_signup env data w user cred w1 :
  if_truthy_num (Payload.id data) = None ->
  postUser_entities env data w = (inr (user, cred), w1) ->
  User.id user = None /\ User.createdAt user = None /\
  cred = credential_after_password env data UserCredential.new /\
  users w1 = users w /\ credentials w1 = credentials w /\
  nextUserId w1 = nextUserId w /\ nextCredentialId w1 = nextCredentialId w.
Proof.
  intros Hid. unfold postUser_entities, credential_after_password.
  destruct (negb _); [discriminate|]. rewrite Hid. run. simpl.
  destruct (if_truthy_str (Payload.password data)) as [pw|].
  - unfold updatePassword_unawaited.
    destruct (updatePassword env UserCredential.new pw);
      intros [= <- <- <-]; now repeat split.
  - intros [= <- <- <-]. now repeat split.
Qed.

Lemma postUser_signup_tables env data w u w' :
  if_truthy_num (Payload.id data) = None ->
  UserCredential.id (credential_after_password env data UserCredential.new) = None ->
  postUser env data w = (inr u, w') ->
  User.id u = Some (nextUserId w) /\
  User.createdAt u = Some (now env) /\
  users w' = (users w ++ [u])%list /\
  nextUserId w' = nextUserId w + 1 /\
  credentials w' =
    (credentials w ++
       [ {| row_id := nextCredentialId w;
            row_user := Some (nextUserId w);
            row_password :=
              UserCredential.password
                (credential_after_password env data UserCredential.new) |} ])%list.
Proof.
  intros Hid Hcid H.
  apply postUser_inr in H as (user & cred & w1 & w2 & c' & He & Hs & Hc).
  apply (postUser_entities_signup _ _ _ _ _ _ Hid) in He
    as (Huid & Hcat & -> & Hu1 & Hc1 & Hn1 & Hm1).
  unfold userRepository_save in Hs.
  destruct (fault env (UserSave user)); [discriminate|]. simpl in Hs.
  destruct (duplicate_entry user (users w1)); [discriminate|].
  rewrite Huid, Hcat in Hs. simpl in Hs. injection Hs as <- <-.
  unfold userCredentialRepository_save in Hc.
  destruct (fault env (CredentialSave _)); [discriminate|].
  cbn [UserCredential.id UserCredential.set_user] in Hc. rewrite Hcid in Hc.
  simpl in Hc. injection Hc as _ <-. simpl.
  rewrite Hu1, Hc1, Hn1, Hm1. repeat split. lia.
Qed.

(** What the save of the credential reads after the password step, case
    by case. *)
Lemma credential_after_password_cases env data c :
  let saved := credential_after_password env data c in
  (forall pw c',
     if_truthy_str (Payload.password data) = Some pw ->
     updatePassword env c pw = inr c' ->
     fulfils_before_save env c pw = true -> saved = c') /\
  (forall pw,
     if_truthy_str (Payload.password data) = Some pw ->
     fulfils_before_save env c pw = false -> saved = c) /\
  (forall pw err,
     if_truthy_str (Payload.password data) = Some pw ->
     updatePassword env c pw = inl err -> saved = c) /\
  (if_truthy_str (Payload.password data) = None -> saved = c).
Proof.
  unfold credential_after_password. repeat split.
  - intros pw c' -> -> ->. reflexivity.
  - intros pw -> ->. now destruct (updatePassword env c pw).
  - intros pw err -> ->. reflexivity.
  - intros ->. reflexivity.
Qed.

(** X21.  A successful signup appends exactly one identity and one
    credential: the identity gets the next id and the time of the database
    as its creation date, and the credential row refers to it.  The
    password on that row is the one the save read off the entity: since
    the promise of [updatePassword] is not awaited, it is the new hash only
    when [updatePassword] accepted the password and its promise fulfilled
    before the credential was saved; when the hash completes later, when
    the password is rejected and when the payload has no password, the row
    is stored with the password of a new credential, that is none.  The
    first hypothesis after the payload's says that [updatePassword] leaves
    the id of the credential alone. *)
Theorem postUser_signup_appends env data w u w' :
  if_truthy_num (Payload.id data) = None ->
  UserCredential.id (credential_after_password env data UserCredential.new) = None ->
  postUser env data w = (inr u, w') ->
  exists saved,
    User.id u = Some (nextUserId w) /\
    User.createdAt u = Some (now env) /\
    users w' = (users w ++ [u])%list /\
    nextUserId w' = nextUserId w + 1 /\
    credentials w' =
      (credentials w ++
         [ {| row_id := nextCredentialId w;
              row_user := Some (nextUserId w);
              row_password := UserCredential.password saved |} ])%list /\
    (forall pw c',
       if_truthy_str (Payload.password data) = Some pw ->
       updatePassword env UserCredential.new pw = inr c' ->
       fulfils_before_save env UserCredential.new pw = true -> saved = c') /\
    (forall pw,
       if_truthy_str (Payload.password data) = Some pw ->
       fulfils_before_save env UserCredential.new pw = false ->
       saved = UserCredential.new) /\
    (forall pw err,
       if_truthy_str (Payload.password data) = Some pw ->
       updatePassword env UserCredential.new pw = inl err ->
       saved = UserCredential.new) /\
    (if_truthy_str (Payload.password data) = None -> saved = UserCredential.new).
Proof.
  intros Hid Hcid H.
  destruct (postUser_signup_tables _ _ _ _ _ Hid Hcid H) as (H1 & H2 & H3 & H4 & H5).
  exists (credential_after_password env data UserCredential.new).
  repeat (split; [assumption|]).
  apply credential_after_password_cases.
Qed.

Lemma postUser_signup_appends_witness :
  (exists u w',
     postUser (sample_env true no_fault) (signup "al@codgi.cc" "al" (Some "secret1"))
       seeded_world = (inr u, w') /\
     User.id u = Some 2 /\
     users w' = [user_zk; u] /\
     credentials w' =
       [ {| row_id := 1; row_user := Some 1;
            row_password := Some "hashed:CorrectPassword" |};
         {| row_id := 2; row_user := Some 2;
            row_password := Some "hashed:secret1" |} ]) /\
  (exists u w',
     postUser (slow_hash_env true no_fault) (signup "al@codgi.cc" "al" (Some "secret1"))
       seeded_world = (inr u, w') /\
     User.id u = Some 2 /\
     users w' = [user_zk; u] /\
     credentials w' =
       [ {| row_id := 1; row_user := Some 1;
            row_password := Some "hashed:CorrectPassword" |};
         {| row_id := 2; row_user := Some 2; row_password := None |} ]).
Proof.
  split.
  - eexists _, _.
    assert (E : postUser (sample_env true no_fault)
                  (signup "al@codgi.cc" "al" (Some "secret1")) seeded_world
                = (inr _, _)) by (vm_compute; reflexivity).
    split; [exact E|].
    destruct (postUser_signup_appends (sample_env true no_fault)
                (signup "al@codgi.cc" "al" (Some "secret1")) seeded_world _ _
                eq_refl eq_refl E)
      as (saved & H1 & _ & H2 & _ & H3 & Hin & _).
    rewrite (Hin "secret1" _ eq_refl eq_refl eq_refl) in H3.
    split; [exact H1|]. split; [exact H2|exact H3].
  - eexists _, _.
    assert (E : postUser (slow_hash_env true no_fault)
                  (signup "al@codgi.cc" "al" (Some "secret1")) seeded_world
                = (inr _, _)) by (vm_compute; reflexivity).
    split; [exact E|].
    destruct (postUser_signup_appends (slow_hash_env true no_fault)
                (signup "al@codgi.cc" "al" (Some "secret1")) seeded_world _ _
                eq_refl eq_refl E)
      as (saved & H1 & _ & H2 & _ & H3 & _ & Hlate & _).
    rewrite (Hlate "secret1" eq_refl eq_refl) in H3.
    split; [exact H1|]. split; [exact H2|exact H3].
Defined.

Lemma find_replaced (P : CredentialRow -> bool) (k : Z) (R c : CredentialRow)
    (rows : list CredentialRow) :
  List.find P rows = Some c -> row_id c = k -> P R = true ->
  List.find P ((fun r => if row_id r =? k then R else r) <$> rows) = Some R.
Proof.
  intros Hfind Hk HR. induction rows as [|r rows IH]; [discriminate|].
  rewrite fmap_cons. simpl in *.
  destruct (P r) eqn:Pr.
  - injection Hfind as ->. rewrite Hk, Z.eqb_refl. now rewrite HR.
  - destruct (row_id r =? k); [now rewrite HR|].
    rewrite Pr. now apply IH.
Qed.

(** The entities of an update. *)
Lemma postUser_entities_update env data w i user cred w1 :
  if_truthy_num (Payload.id data) = Some i ->
  postUser_entities env data w = (inr (user, cred), w1) ->
  fault env (CredentialFindOne i) = None /\
  exists c0,
    stored_credential i w = Some c0 /\
    cred = credential_after_password env data c0 /\
    credentials w1 = credentials w /\
    nextCredentialId w1 = nextCredentialId w.
Proof.
  intros Hid. unfold postUser_entities, credential_after_password.
  destruct (negb _); [discriminate|]. rewrite Hid. run.
  destruct (fault env (CredentialFindOne i)) eqn:Hf.
  { unfold userCredentialRepository_findOne. rewrite Hf. discriminate. }
  rewrite (userCredentialRepository_findOne_run _ _ _ Hf).
  destruct (stored_credential i w) as [c0|] eqn:Hc0; [|discriminate].
  assert (Hu : exists old, UserCredential.user c0 = Some old).
  { unfold stored_credential in Hc0.
    destruct (List.find _ _); [|discriminate].
    destruct (find_user _ _); [|discriminate].
    injection Hc0 as <-. simpl. eauto. }
  destruct Hu as [old ->]. simpl.
  intros H. split; [reflexivity|]. exists c0. split; [reflexivity|].
  destruct (if_truthy_str (Payload.password data)) as [pw|].
  - unfold updatePassword_unawaited in H.
    destruct (updatePassword env c0 pw); injection H as _ <- <-; now repeat split.
  - injection H as _ <- <-. now repeat split.
Qed.

Lemma postUser_update_credential env data w u w' i :
  if_truthy_num (Payload.id data) = Some i ->
  postUser env data w = (inr u, w') ->
  exists c0,
    fst (userCredentialRepository_findOne env i w) = inr (Some c0) /\
    (UserCredential.id (credential_after_password env data c0) = UserCredential.id c0 ->
     fst (userCredentialRepository_findOne env i w')
       = inr (Some (UserCredential.set_user (Some u)
                      (credential_after_password env data c0)))).
Proof.
  intros Hid H.
  destruct (postUser_update _ _ _ _ _ _ Hid H) as (old & Hold & Hnew & _).
  apply postUser_inr in H as (user & cred & w1 & w2 & c' & He & Hs & Hc).
  apply (postUser_entities_update _ _ _ _ _ _ _ Hid) in He
    as (Hf & c0 & Hc0 & -> & Hc1 & _).
  exists c0. rewrite !(userCredentialRepository_findOne_run _ _ _ Hf). simpl.
  split; [now rewrite Hc0|].
  set (c1 := credential_after_password env data c0) in *. intros Hsame.
  unfold stored_credential in Hc0.
  destruct (List.find _ (credentials w)) as [c|] eqn:Hfind; [|discriminate].
  rewrite Hold in Hc0. injection Hc0 as <-. simpl in Hsame.
  apply userRepository_save_credentials in Hs as [Hc2 _].
  unfold userCredentialRepository_save in Hc.
  destruct (fault env (CredentialSave _)); [discriminate|].
  cbn [UserCredential.id UserCredential.set_user] in Hc. rewrite Hsame in Hc.
  cbn [default from_option Datatypes.id defined andb credentials record_call] in Hc.
  assert (Hex : existsb (fun r => row_id r =? row_id c) (credentials w2) = true).
  { apply existsb_exists. exists c. split; [|apply Z.eqb_refl].
    rewrite Hc2, Hc1. now apply find_some in Hfind as [Hin _]. }
  rewrite Hex in Hc. injection Hc as _ <-.
  f_equal. unfold stored_credential.
  cbn [credentials users set_credentials record_call] in *.
  rewrite Hc2, Hc1.
  rewrite (find_replaced _ (row_id c) _ c (credentials w) Hfind eq_refl).
  2: { unfold credential_row. simpl.
       apply eqb_opt_true. now apply find_user_Some in Hnew. }
  rewrite Hnew. unfold credential_row, UserCredential.set_user. simpl.
  now rewrite Hsame.
Qed.

(** X22.  The credential read back after a successful update is the one
    the save read off the entity, joined with the updated identity.  Since
    the promise of [updatePassword] is not awaited, it carries the new hash
    only when [updatePassword] accepted the password of the payload and its
    promise fulfilled before the credential was saved; when the hash
    completes later, when the password is rejected and when the payload has
    no password, the stored password is the one from before.  The
    hypothesis inside says that [updatePassword] leaves the id of the
    credential alone. *)
Theorem postUser_update_then_read_credential env data w u w' i :
  if_truthy_num (Payload.id data) = Some i ->
  postUser env data w = (inr u, w') ->
  exists c0 saved,
    fst (userCredentialRepository_findOne env i w) = inr (Some c0) /\
    (UserCredential.id saved = UserCredential.id c0 ->
     fst (userCredentialRepository_findOne env i w')
       = inr (Some (UserCredential.set_user (Some u) saved))) /\
    (forall pw c',
       if_truthy_str (Payload.password data) = Some pw ->
       updatePassword env c0 pw = inr c' ->
       fulfils_before_save env c0 pw = true -> saved = c') /\
    (forall pw,
       if_truthy_str (Payload.password data) = Some pw ->
       fulfils_before_save env c0 pw = false -> saved = c0) /\
    (forall pw err,
       if_truthy_str (Payload.password data) = Some pw ->
       updatePassword env c0 pw = inl err -> saved = c0) /\
    (if_truthy_str (Payload.password data) = None -> saved = c0).
Proof.
  intros Hid H.
  destruct (postUser_update_credential _ _ _ _ _ _ Hid H) as (c0 & H0 & H1).
  exists c0, (credential_after_password env data c0).
  split; [exact H0|]. split; [exact H1|].
  apply credential_after_password_cases.
Qed.

Lemma postUser_update_then_read_credential_witness :
  let data := payload_of (Some 1) (Some "zk@codgi.cc") (Some "zk") None
                (Some "NewPassword1") in
  (exists u w',
     postUser (sample_env true no_fault) data seeded_world = (inr u, w') /\
     fst (userCredentialRepository_findOne (sample_env true no_fault) 1 w')
       = inr (Some {| UserCredential.id := Some 1;
                      UserCredential.user := Some u;
                      UserCredential.password := Some "hashed:NewPassword1" |})) /\
  (exists u w',
     postUser (slow_hash_env true no_fault) data seeded_world = (inr u, w') /\
     fst (userCredentialRepository_findOne (slow_hash_env true no_fault) 1 w')
       = inr (Some {| UserCredential.id := Some 1;
                      UserCredential.user := Some u;
                      UserCredential.password := Some "hashed:CorrectPassword" |})).
Proof.
  intros data. split.
  - eexists _, _.
    assert (E : postUser (sample_env true no_fault) data seeded_world = (inr _, _))
      by (vm_compute; reflexivity).
    split; [exact E|].
    destruct (postUser_update_then_read_credential (sample_env true no_fault) data
                seeded_world _ _ 1 eq_refl E)
      as (c0 & saved & H0 & H1 & Hin & _).
    assert (Hc0 : c0 = {| UserCredential.id := Some 1;
                          UserCredential.user := Some user_zk;
                          UserCredential.password := Some "hashed:CorrectPassword" |}).
    { vm_compute in H0. now injection H0 as <-. }
    subst c0. rewrite (Hin "NewPassword1" _ eq_refl eq_refl eq_refl) in H1.
    exact (H1 eq_refl).
  - eexists _, _.
    assert (E : postUser (slow_hash_env true no_fault) data seeded_world = (inr _, _))
      by (vm_compute; reflexivity).
    split; [exact E|].
    destruct (postUser_update_then_read_credential (slow_hash_env true no_fault) data
                seeded_world _ _ 1 eq_refl E)
      as (c0 & saved & H0 & H1 & _ & Hlate & _).
    assert (Hc0 : c0 = {| UserCredential.id := Some 1;
                          UserCredential.user := Some user_zk;
                          UserCredential.password := Some "hashed:CorrectPassword" |}).
    { vm_compute in H0. now injection H0 as <-. }
    subst c0. rewrite (Hlate "NewPassword1" eq_refl eq_refl) in H1.
    exact (H1 eq_refl).
Defined.

(** ** Lengths are counted as the code counts them *)

(** A username of two characters outside ASCII has [.length] 2, whatever
    the number of bytes that hold it: under a minimum of 3 it is too short,
    while one of three such characters passes. *)
Example validateUserInfo_counts_code_units :
  js_length (Some "日本") = 2 /\
  validateUserInfo sample_policy has_at
    (payload_of None (Some "al@codgi.cc") (Some "日本") None None)
    = inl (createError 400 "Username too short.") /\
  validateUserInfo sample_policy has_at
    (payload_of None (Some "al@codgi.cc") (Some "日本語") None None)
    = inr true.
Proof. repeat split; vm_compute; reflexivity. Qed.
